(** * pv-migrate, package rsync: the transfer script, the access grant and
      the rsync job

    A shallow embedding of [internal/rsync] (constants, [scriptTemplate],
    [BuildRsyncScript], [createRsyncPrivateKeySecret], [buildRsyncJobDest],
    [RunRsyncJobOverSSH], [createPSPResources], [ensurePSP]) together with
    the library behaviour these functions rely on: execution of an
    [html/template] in text context, the [sh] control flow of the rendered
    script, and the create contract of the Kubernetes API.

    Go strings are byte strings: [string] (a list of 8-bit [ascii]) is used
    as is.  Go maps are [gmap]s.  A Go [error] result is an [option error],
    [None] standing for [nil]. *)

From Stdlib Require Import ZArith DecimalString Ascii String.
From stdpp Require Import gmap strings list.

Open Scope Z_scope.

(* ===================================================================== *)
(** * Part I: definitions *)
(* ===================================================================== *)

(** ** Characters that the sources write inside string literals *)

Definition nl : string := String "010"%char EmptyString.
Definition dq : string := String "034"%char EmptyString.
Definition bs : string := String "092"%char EmptyString.

(** [cat] glues the pieces of a literal; [q s] is [s] between double
    quotes. *)
Definition cat (pieces : list string) : string :=
  foldr String.append EmptyString pieces.

Definition q (s : string) : string := dq +:+ s +:+ dq.

(** [fmt.Sprint] of an [int]. *)
Definition itoa (z : Z) : string := NilZero.string_of_int (Z.to_int z).

(** ** Errors *)

(** [metav1.StatusReason], the reasons of API status errors. *)
Inductive StatusReason :=
| StatusReasonUnknown
| StatusReasonUnauthorized
| StatusReasonForbidden
| StatusReasonNotFound
| StatusReasonAlreadyExists
| StatusReasonConflict
| StatusReasonInvalid
| StatusReasonBadRequest
| StatusReasonTimeout
| StatusReasonInternalError
| StatusReasonServiceUnavailable.

(** A Go [error]: an API status error, an error of template execution, or
    any other error (transport, key generation, wait timeout, ...). *)
Inductive error :=
| StatusError (reason : StatusReason) (message : string)
| ExecError (message : string)
| OtherError (message : string).

(** [errors.IsAlreadyExists]: the reason of the error is "AlreadyExists";
    [false] on [nil]. *)
Definition IsAlreadyExists (err : option error) : bool :=
  match err with
  | Some (StatusError StatusReasonAlreadyExists _) => true
  | _ => false
  end.

(** What a function that returns a pointer and an [error] answers: the
    object with a [nil] error, or a [nil] pointer with the error. *)
Inductive result (T : Type) :=
| Ok (obj : T)
| Err (err : error).
Arguments Ok {T} obj.
Arguments Err {T} err.

(** ** The constants of the package *)

Definition maxRetries : Z := 10.
Definition retryIntervalSecs : Z := 5.
Definition sshConnectTimeoutSecs : Z := 5.
Definition pspName : string := "pv-migrate".

(** ** Templates ([html/template], text context) *)

Module Template.

(** The data a pipeline evaluates to. *)
Inductive value :=
| VBool (b : bool)
| VInt (z : Z)
| VString (s : string).

#[local] Set Warnings "-register-all".

(** The parse tree: literal text, [{{.Field}}], and
    [{{if .Field}} ... {{else}} ... {{end}}].  Trim markers ([-}}]) are
    resolved by the parser: they cut the white space off the text that
    follows, so they leave no trace in the tree. *)
Inductive node :=
| TextNode (text : string)
| ActionNode (fld : string)
| IfNode (fld : string) (thenList elseList : list node).

(** [text/template]'s truth: the zero value of the type is false. *)
Definition isTrue (v : value) : bool :=
  match v with
  | VBool b => b
  | VInt z => negb (z =? 0)
  | VString s => negb (String.eqb s EmptyString)
  end.

(** [htmlReplacementTable]: the replacement of a byte, if it has one.  The
    table ends at ['>']; every rune beyond it, and every byte of a
    multi-byte or ill-formed sequence, is copied. *)
Definition htmlReplacement (c : ascii) : option string :=
  match nat_of_ascii c with
  | 0%nat => Some (String (ascii_of_nat 239)
                    (String (ascii_of_nat 191)
                      (String (ascii_of_nat 189) EmptyString)))
  | 34%nat => Some "&#34;"
  | 38%nat => Some "&amp;"
  | 39%nat => Some "&#39;"
  | 43%nat => Some "&#43;"
  | 60%nat => Some "&lt;"
  | 62%nat => Some "&gt;"
  | _ => None
  end.

(** [htmlReplacer s htmlReplacementTable true]. *)
Fixpoint htmlReplacer (s : string) : string :=
  match s with
  | EmptyString => EmptyString
  | String c rest =>
      match htmlReplacement c with
      | Some repl => repl +:+ htmlReplacer rest
      | None => String c (htmlReplacer rest)
      end
  end.

(** [stringify] followed by the escaper that the package adds to every
    pipeline in text context. *)
Definition htmlEscaper (v : value) : string :=
  htmlReplacer
    match v with
    | VBool true => "true"
    | VBool false => "false"
    | VInt z => itoa z
    | VString s => s
    end.

Section Exec.
(** The data the template is executed on: field name to value, [None]
    for a name the struct does not have. *)
Variable dot : string -> option value.

Definition fieldError (fld : string) : error :=
  ExecError ("can't evaluate field " +:+ fld).

(** [state.walk]: the text a node writes, and the error that stops the
    execution. *)
Fixpoint walk (n : node) : string * option error :=
  match n with
  | TextNode text => (text, None)
  | ActionNode fld =>
      match dot fld with
      | Some v => (htmlEscaper v, None)
      | None => (EmptyString, Some (fieldError fld))
      end
  | IfNode fld thenList elseList =>
      match dot fld with
      | None => (EmptyString, Some (fieldError fld))
      | Some v =>
          (fix walkList (l : list node) : string * option error :=
             match l with
             | [] => (EmptyString, None)
             | n' :: l' =>
                 match walk n' with
                 | (out, None) =>
                     let (out', err) := walkList l' in (out +:+ out', err)
                 | (out, Some err) => (out, Some err)
                 end
             end) (if isTrue v then thenList else elseList)
      end
  end.

(** [Template.Execute]: the nodes of the root list in order; what was
    written stays in the buffer when a node fails. *)
Fixpoint Execute (l : list node) : string * option error :=
  match l with
  | [] => (EmptyString, None)
  | n :: l' =>
      match walk n with
      | (out, None) =>
          let (out', err) := Execute l' in (out +:+ out', err)
      | (out, Some err) => (out, Some err)
      end
  end.
End Exec.

End Template.

(** ** The script *)

Import Template.

(** [type script struct]. *)
Record script := {
  MaxRetries : Z;
  DeleteExtraneousFiles : bool;
  NoChown : bool;
  SshTargetHost : string;
  SshConnectTimeoutSecs : Z;
  RetryIntervalSecs : Z
}.

(** Field access by name, as the template engine does it by reflection. *)
Definition script_field (s : script) (name : string) : option value :=
  if String.eqb name "MaxRetries" then Some (VInt (MaxRetries s))
  else if String.eqb name "DeleteExtraneousFiles"
       then Some (VBool (DeleteExtraneousFiles s))
  else if String.eqb name "NoChown" then Some (VBool (NoChown s))
  else if String.eqb name "SshTargetHost"
       then Some (VString (SshTargetHost s))
  else if String.eqb name "SshConnectTimeoutSecs"
       then Some (VInt (SshConnectTimeoutSecs s))
  else if String.eqb name "RetryIntervalSecs"
       then Some (VInt (RetryIntervalSecs s))
  else None.

(** [scriptTemplate], as [Parse] reads the literal.  Each text node ends
    where the next action begins; after [-}}] the text resumes at its first
    character that is not white space. *)
Definition scriptTemplate : list node :=
  [ TextNode (cat [nl; "n=0"; nl; "rc=1"; nl; "retries="]);
    ActionNode "MaxRetries";
    TextNode (cat [nl;
      "until [ "; q "$n"; " -ge "; q "$retries"; " ]"; nl;
      "do"; nl;
      "  rsync "; bs; nl;
      "    -avzh "; bs; nl;
      "    --progress "; bs; nl;
      "    "]);
    IfNode "DeleteExtraneousFiles"
      [ TextNode (cat ["--delete "; bs; nl; "    "]) ]
      [];
    IfNode "NoChown"
      [ TextNode (cat ["--no-o --no-g "; bs; nl; "    "]) ]
      [];
    IfNode "SshTargetHost"
      [ TextNode (cat ["-e "; dq;
          "ssh -o StrictHostKeyChecking=no -o UserKnownHostsFile=/dev/null -o ConnectTimeout="]);
        ActionNode "SshConnectTimeoutSecs";
        TextNode (cat [dq; " "; bs; nl; "    root@"]);
        ActionNode "SshTargetHost";
        TextNode (cat [":/source/ "; bs; nl; "    "]) ]
      [ TextNode (cat ["/source/ "; bs; nl; "    "]) ];
    TextNode (cat [
      "/dest/ && "; bs; nl;
      "    rc=0 && "; bs; nl;
      "    break"; nl;
      "  n=$((n+1))"; nl;
      "  echo "; dq; "rsync attempt $n/"]);
    ActionNode "MaxRetries";
    TextNode " failed, waiting ";
    ActionNode "RetryIntervalSecs";
    TextNode (cat [" seconds before trying again"; dq; nl; "  sleep "]);
    ActionNode "RetryIntervalSecs";
    TextNode (cat [nl;
      "done"; nl;
      nl;
      "if [ $rc -ne 0 ]; then"; nl;
      "  echo "; q "Rsync job failed after $retries retries"; nl;
      "fi"; nl;
      "exit $rc"; nl]) ].

(** The struct [BuildRsyncScript] fills in (its local [s]). *)
Definition scriptData (deleteExtraneousFiles noChown : bool)
    (sshTargetHost : string) : script :=
  {| MaxRetries := maxRetries;
     DeleteExtraneousFiles := deleteExtraneousFiles;
     NoChown := noChown;
     SshTargetHost := sshTargetHost;
     SshConnectTimeoutSecs := sshConnectTimeoutSecs;
     RetryIntervalSecs := retryIntervalSecs |}.

Definition BuildRsyncScript (deleteExtraneousFiles noChown : bool)
    (sshTargetHost : string) : string * option error :=
  let s := scriptData deleteExtraneousFiles noChown sshTargetHost in
  match Execute (script_field s) scriptTemplate with
  | (_, Some err) => (EmptyString, Some err)
  | (templatedScript, None) => (templatedScript, None)
  end.

(** ** The control flow of the rendered script under [sh -c]

    Whatever the three parameters are, the rendered text is the same shell
    program around one [rsync] command:
<<
    n=0; rc=1; retries=R
    until [ "$n" -ge "$retries" ]; do
      rsync ARGS && rc=0 && break
      n=$((n+1))
      echo "rsync attempt $n/R failed, waiting D seconds before trying again"
      sleep D
    done
    if [ $rc -ne 0 ]; then echo "Rsync job failed after $retries retries"; fi
    exit $rc
>>
    with [R] and [D] the [MaxRetries] and [RetryIntervalSecs] of the
    struct.  The data-copy tool is a stub: the exit status of its [i]-th
    invocation, counted from 0. *)

Module Sh.

(** What the script does that can be seen from outside. *)
Inductive event :=
| Rsync (status : Z)
| Echo (line : string)
| Sleep (secs : Z).

(** The shell variables. *)
Record vars := { n : Z; rc : Z; retries : Z }.

Section Script.
Variable s : script.
Variable rsync : nat -> Z.

Definition attemptFailed (n : Z) : string :=
  cat ["rsync attempt "; itoa n; "/"; itoa (MaxRetries s);
       " failed, waiting "; itoa (RetryIntervalSecs s);
       " seconds before trying again"].

Definition jobFailed (retries : Z) : string :=
  cat ["Rsync job failed after "; itoa retries; " retries"].

(** The [until] loop; [calls] counts the invocations made so far.  The
    events are listed in the order they happen.  [None]: the fuel ran out
    before the loop ended. *)
Fixpoint until_loop (fuel : nat) (calls : nat) (v : vars)
    : option (vars * list event) :=
  if n v >=? retries v then Some (v, [])
  else
    match fuel with
    | O => None
    | S fuel' =>
        let status := rsync calls in
        if status =? 0 then
          Some ({| n := n v; rc := 0; retries := retries v |},
                [Rsync status])
        else
          let v' := {| n := n v + 1; rc := rc v; retries := retries v |} in
          match until_loop fuel' (S calls) v' with
          | None => None
          | Some (v'', evs) =>
              Some (v'', Rsync status :: Echo (attemptFailed (n v'))
                           :: Sleep (RetryIntervalSecs s) :: evs)
          end
    end.

(** The whole script: its exit status and what it did. *)
Definition run (fuel : nat) : option (Z * list event) :=
  let v0 := {| n := 0; rc := 1; retries := MaxRetries s |} in
  match until_loop fuel 0 v0 with
  | None => None
  | Some (v, evs) =>
      Some (rc v,
            if negb (rc v =? 0) then evs ++ [Echo (jobFailed (retries v))]
            else evs)
  end.

(** [k] failed attempts in a row, the first being invocation [calls] made
    with the counter at [n]. *)
Fixpoint failures (calls : nat) (n : Z) (k : nat) : list event :=
  match k with
  | O => []
  | S k' =>
      Rsync (rsync calls) :: Echo (attemptFailed (n + 1))
        :: Sleep (RetryIntervalSecs s) :: failures (S calls) (n + 1) k'
  end.

(** The first of the [m] invocations from [calls] on that exits zero, as
    an offset from [calls]. *)
Fixpoint first_success (calls : nat) (m : nat) : option nat :=
  match m with
  | O => None
  | S m' =>
      if rsync calls =? 0 then Some O
      else S <$> first_success (S calls) m'
  end.
End Script.

(** What is left of the retry budget. *)
Definition budget (v : vars) : nat := Z.to_nat (retries v - n v).

(** How often the tool was invoked, and how long the script slept. *)
Fixpoint invocations (evs : list event) : nat :=
  match evs with
  | [] => O
  | Rsync _ :: evs' => S (invocations evs')
  | _ :: evs' => invocations evs'
  end.

Fixpoint delay (evs : list event) : Z :=
  match evs with
  | [] => 0
  | Sleep d :: evs' => d + delay evs'
  | _ :: evs' => delay evs'
  end.

End Sh.

(** ** Kubernetes objects

    The structs of [metav1], [corev1], [batchv1], [rbacv1] and [v1beta1]
    with the fields this package sets; a field the package leaves out has
    its zero value.  Field names that several structs share carry the
    struct's name in front. *)

Record ObjectMeta := {
  Name : string;
  Namespace : string;
  Labels : gmap string string
}.

Record Secret := {
  Secret_ObjectMeta : ObjectMeta;
  Data : gmap string string
}.

Record ServiceAccount := { ServiceAccount_ObjectMeta : ObjectMeta }.

Record PolicyRule := {
  Verbs : list string;
  APIGroups : list string;
  Resources : list string;
  ResourceNames : list string
}.

Record Role := {
  Role_ObjectMeta : ObjectMeta;
  Rules : list PolicyRule
}.

Record Subject := {
  Subject_Kind : string;
  Subject_Name : string
}.

Record RoleRef := {
  RoleRef_APIGroup : string;
  RoleRef_Kind : string;
  RoleRef_Name : string
}.

Record RoleBinding := {
  RoleBinding_ObjectMeta : ObjectMeta;
  Subjects : list Subject;
  RoleBinding_RoleRef : RoleRef
}.

(** The strategy rules and volume types of [v1beta1] are string
    constants. *)
Definition RunAsUserStrategyRunAsAny : string := "RunAsAny".
Definition RunAsGroupStrategyRunAsAny : string := "RunAsAny".
Definition FSGroupStrategyRunAsAny : string := "RunAsAny".
Definition SELinuxStrategyRunAsAny : string := "RunAsAny".
Definition SupplementalGroupsStrategyRunAsAny : string := "RunAsAny".
Definition FSType_Secret : string := "secret".
Definition FSType_PersistentVolumeClaim : string := "persistentVolumeClaim".

Record PodSecurityPolicySpec := {
  RunAsUser : string;
  RunAsGroup : option string;
  FSGroup : string;
  SELinux : string;
  SupplementalGroups : string;
  PodSecurityPolicySpec_Volumes : list string
}.

Record PodSecurityPolicy := {
  PodSecurityPolicy_ObjectMeta : ObjectMeta;
  PodSecurityPolicy_Spec : PodSecurityPolicySpec
}.

Record PersistentVolumeClaimVolumeSource := { ClaimName : string }.

Record SecretVolumeSource := {
  SecretName : string;
  DefaultMode : option Z
}.

Record VolumeSource := {
  VolumeSource_PersistentVolumeClaim : option PersistentVolumeClaimVolumeSource;
  VolumeSource_Secret : option SecretVolumeSource
}.

Record Volume := {
  Volume_Name : string;
  Volume_VolumeSource : VolumeSource
}.

Record VolumeMount := {
  VolumeMount_Name : string;
  ReadOnly : bool;
  MountPath : string;
  SubPath : string
}.

Record Container := {
  Container_Name : string;
  Image : string;
  Command : list string;
  VolumeMounts : list VolumeMount
}.

Inductive RestartPolicy :=
| RestartPolicyAlways
| RestartPolicyOnFailure
| RestartPolicyNever.

Record PodSpec := {
  ServiceAccountName : string;
  Volumes : list Volume;
  Containers : list Container;
  NodeName : string;
  PodSpec_RestartPolicy : RestartPolicy
}.

Record PodTemplateSpec := {
  PodTemplateSpec_ObjectMeta : ObjectMeta;
  PodTemplateSpec_Spec : PodSpec
}.

Record JobSpec := {
  BackoffLimit : option Z;
  TTLSecondsAfterFinished : option Z;
  Template : PodTemplateSpec
}.

Record Job := {
  Job_ObjectMeta : ObjectMeta;
  Job_Spec : JobSpec
}.

Record Pod := {
  Pod_ObjectMeta : ObjectMeta;
  Pod_Spec : PodSpec
}.

Inductive ServiceType :=
| ServiceTypeClusterIP
| ServiceTypeNodePort
| ServiceTypeLoadBalancer
| ServiceTypeExternalName.

Record Service := {
  Service_ObjectMeta : ObjectMeta;
  Service_Type : ServiceType
}.

Record PersistentVolumeClaim := {
  PersistentVolumeClaim_ObjectMeta : ObjectMeta
}.

(** A [kubernetes.Interface] value: the client of one cluster.  Two equal
    handles are the same client. *)
Definition clientset := nat.

(** ** The packages of the repository that package [rsync] imports

    Their declarations are not among the sources at hand; the records have
    the fields that package [rsync] reads. *)

Module pvc.
Record Info := {
  KubeClient : clientset;
  Claim : PersistentVolumeClaim;
  MountedNode : string
}.
End pvc.

Module migration.
Record Options := {
  DeleteExtraneousFiles : bool;
  NoChown : bool;
  KeyAlgorithm : string;
  SourceCreatePSP : bool;
  DestCreatePSP : bool
}.

Record Migration := {
  Options_ : Options;
  RsyncImage : string;
  SshdImage : string
}.
End migration.

Module task.
Record Task := {
  ID : string;
  SourceInfo : pvc.Info;
  DestInfo : pvc.Info;
  Migration : migration.Migration
}.
End task.

Module k8s.
(** Modelled from the spec: the component tags.  The declaration of
    [k8s.Rsync] is missing; the spec names objects
    [<fixed-prefix>-<component-tag>-<instanceId>], which for the names
    this package builds makes the tag of the rsync side [rsync]. *)
Definition Component := string.
Definition Rsync : Component := "rsync".

(** Modelled from the spec: [k8s.ComponentLabels], whose body is missing.
    The spec gives the common label set as
    [{instance=<instanceId>, component=<componentTag>}]. *)
Definition ComponentLabels (id : string) (component : Component)
    : gmap string string :=
  {[ "instance" := id; "component" := component ]}.
End k8s.

(** The namespace and the name of a claim, as [pvcInfo.Claim.Namespace]
    and [pvcInfo.Claim.Name]. *)
Definition Claim_Namespace (i : pvc.Info) : string :=
  Namespace (PersistentVolumeClaim_ObjectMeta (pvc.Claim i)).

Definition Claim_Name (i : pvc.Info) : string :=
  Name (PersistentVolumeClaim_ObjectMeta (pvc.Claim i)).

(** ** Calls that leave the package

    The package talks to the cluster through [client-go] and to the rest
    of the repository through functions whose bodies are not among the
    sources at hand.  Both are calls with an answer that the package does
    not control; a function of the package is a program over them. *)

Inductive call : Type -> Type :=
(* client-go: c.PolicyV1beta1().PodSecurityPolicies().Create and so on *)
| PodSecurityPolicies_Create (c : clientset) (psp : PodSecurityPolicy)
    : call (result PodSecurityPolicy)
| ServiceAccounts_Create (c : clientset) (ns : string) (sa : ServiceAccount)
    : call (result ServiceAccount)
| Roles_Create (c : clientset) (ns : string) (role : Role)
    : call (result Role)
| RoleBindings_Create (c : clientset) (ns : string) (rb : RoleBinding)
    : call (result RoleBinding)
| Secrets_Create (c : clientset) (ns : string) (secret : Secret)
    : call (result Secret)
(* the rest of the repository *)
| CreateSSHKeyPair (keyAlgorithm : string)
    : call (string * string * option error)
| createSshdPublicKeySecret (instanceId : string) (pvcInfo : pvc.Info)
    (publicKey : string)
    : call (result Secret)
| PrepareSshdPod (instanceId : string) (pvcInfo : pvc.Info)
    (secretName sshdImage svcAccName : string)
    : call Pod
| CreateSshdPodWaitTillRunning (c : clientset) (pod : Pod)
    : call (option error)
| CreateSshdService (instanceId : string) (pvcInfo : pvc.Info)
    (serviceType : ServiceType)
    : call (result Service)
| GetServiceAddress (c : clientset) (service : Service)
    : call (string * option error)
| CreateJobWaitTillCompleted (c : clientset) (job : Job)
    : call (option error).

(** A program: it returns, or makes a call and goes on with the answer. *)
Inductive prog (A : Type) : Type :=
| Return (a : A)
| Call {X : Type} (e : call X) (k : X -> prog A).
Arguments Return {A} a.
Arguments Call {A X} e k.

Fixpoint bind {A B : Type} (p : prog A) (f : A -> prog B) : prog B :=
  match p with
  | Return a => f a
  | Call e k => Call e (fun x => bind (k x) f)
  end.

#[export] Instance prog_ret : MRet prog := @Return.
#[export] Instance prog_bind : MBind prog := fun A B f p => bind p f.

(** One call. *)
Definition perform {X : Type} (e : call X) : prog X := Call e Return.

(** The error of an answer. *)
Definition result_err {T : Type} (r : result T) : option error :=
  match r with
  | Ok _ => None
  | Err err => Some err
  end.

(** ** The functions of the package that reach the cluster *)

(** The [secret] of [createRsyncPrivateKeySecret]. *)
Definition rsyncPrivateKeySecret (instanceId : string) (pvcInfo : pvc.Info)
    (privateKey : string) : Secret :=
  let namespace := Claim_Namespace pvcInfo in
  let name := "pv-migrate-rsync-" +:+ instanceId in
  {| Secret_ObjectMeta :=
       {| Name := name;
          Namespace := namespace;
          Labels := k8s.ComponentLabels instanceId k8s.Rsync |};
     Data := {[ "privateKey" := privateKey ]} |}.

Definition createRsyncPrivateKeySecret (instanceId : string)
    (pvcInfo : pvc.Info) (privateKey : string) : prog (result Secret) :=
  let kubeClient := pvc.KubeClient pvcInfo in
  let namespace := Claim_Namespace pvcInfo in
  perform (Secrets_Create kubeClient namespace
             (rsyncPrivateKeySecret instanceId pvcInfo privateKey)).

Definition buildRsyncJobDest (t : task.Task) (targetHost : string)
    (privateKeySecretName : string) (svcAccName : string) : result Job :=
  let jobTTLSeconds := 600 in
  let backoffLimit := 0 in
  let id := task.ID t in
  let jobName := "pv-migrate-rsync-" +:+ id in
  let d := task.DestInfo t in
  let opts := migration.Options_ (task.Migration t) in
  match BuildRsyncScript (migration.DeleteExtraneousFiles opts)
          (migration.NoChown opts) targetHost with
  | (_, Some err) => Err err
  | (rsyncScript, None) =>
      let permissions := 256 in
      let job :=
        {| Job_ObjectMeta :=
             {| Name := jobName;
                Namespace := Claim_Namespace d;
                Labels := ∅ |};
           Job_Spec :=
             {| BackoffLimit := Some backoffLimit;
                TTLSecondsAfterFinished := Some jobTTLSeconds;
                Template :=
                  {| PodTemplateSpec_ObjectMeta :=
                       {| Name := jobName;
                          Namespace := Claim_Namespace d;
                          Labels := k8s.ComponentLabels id k8s.Rsync |};
                     PodTemplateSpec_Spec :=
                       {| ServiceAccountName := svcAccName;
                          Volumes :=
                            [ {| Volume_Name := "dest-vol";
                                 Volume_VolumeSource :=
                                   {| VolumeSource_PersistentVolumeClaim :=
                                        Some {| ClaimName := Claim_Name d |};
                                      VolumeSource_Secret := None |} |};
                              {| Volume_Name := "private-key-vol";
                                 Volume_VolumeSource :=
                                   {| VolumeSource_PersistentVolumeClaim :=
                                        None;
                                      VolumeSource_Secret :=
                                        Some {| SecretName :=
                                                  privateKeySecretName;
                                                DefaultMode :=
                                                  Some permissions |} |} |} ];
                          Containers :=
                            [ {| Container_Name := "app";
                                 Image :=
                                   migration.RsyncImage (task.Migration t);
                                 Command := [ "sh"; "-c"; rsyncScript ];
                                 VolumeMounts :=
                                   [ {| VolumeMount_Name := "dest-vol";
                                        ReadOnly := false;
                                        MountPath := "/dest";
                                        SubPath := EmptyString |};
                                     {| VolumeMount_Name := "private-key-vol";
                                        ReadOnly := false;
                                        MountPath :=
                                          "/root/.ssh/id_" +:+
                                          migration.KeyAlgorithm
                                            (migration.Options_
                                               (task.Migration t));
                                        SubPath := "privateKey" |} ] |} ];
                          NodeName := pvc.MountedNode d;
                          PodSpec_RestartPolicy := RestartPolicyNever |} |}
             |} |} in
      Ok job
  end.

(** The [psp] of [ensurePSP]. *)
Definition sharedPolicy : PodSecurityPolicy :=
  {| PodSecurityPolicy_ObjectMeta :=
       {| Name := pspName; Namespace := EmptyString; Labels := ∅ |};
     PodSecurityPolicy_Spec :=
       {| RunAsUser := RunAsUserStrategyRunAsAny;
          RunAsGroup := Some RunAsGroupStrategyRunAsAny;
          FSGroup := FSGroupStrategyRunAsAny;
          SELinux := SELinuxStrategyRunAsAny;
          SupplementalGroups := SupplementalGroupsStrategyRunAsAny;
          PodSecurityPolicySpec_Volumes :=
            [ FSType_Secret; FSType_PersistentVolumeClaim ] |} |}.

Definition ensurePSP (c : clientset) : prog (option error) :=
  r ← perform (PodSecurityPolicies_Create c sharedPolicy);
  let err := result_err r in
  if IsAlreadyExists err then mret None
  else mret err.

(** The [sa], [role] and [rb] of [createPSPResources]. *)
Definition grantServiceAccount (id : string) : ServiceAccount :=
  let name := "pv-migrate-" +:+ id in
  {| ServiceAccount_ObjectMeta :=
       {| Name := name; Namespace := EmptyString; Labels := ∅ |} |}.

Definition grantRole (id ns : string) : Role :=
  {| Role_ObjectMeta :=
       {| Name := "pv-migrate-" +:+ id; Namespace := ns; Labels := ∅ |};
     Rules :=
       [ {| Verbs := [ "use" ];
            APIGroups := [ "policy" ];
            Resources := [ "podsecuritypolicies" ];
            ResourceNames := [ pspName ] |} ] |}.

Definition grantRoleBinding (id ns : string) : RoleBinding :=
  let name := "pv-migrate-" +:+ id in
  {| RoleBinding_ObjectMeta :=
       {| Name := name; Namespace := ns; Labels := ∅ |};
     Subjects :=
       [ {| Subject_Kind := "ServiceAccount"; Subject_Name := name |} ];
     RoleBinding_RoleRef :=
       {| RoleRef_APIGroup := "rbac.authorization.k8s.io";
          RoleRef_Kind := "Role";
          RoleRef_Name := name |} |}.

Definition createPSPResources (c : clientset) (id : string) (ns : string)
    : prog (string * option error) :=
  err ← ensurePSP c;
  match err with
  | Some err => mret (EmptyString, Some err)
  | None =>
      let name := "pv-migrate-" +:+ id in
      r ← perform (ServiceAccounts_Create c ns (grantServiceAccount id));
      match result_err r with
      | Some err => mret (EmptyString, Some err)
      | None =>
          r ← perform (Roles_Create c ns (grantRole id ns));
          match result_err r with
          | Some err => mret (EmptyString, Some err)
          | None =>
              r ← perform (RoleBindings_Create c ns (grantRoleBinding id ns));
              match result_err r with
              | Some err => mret (EmptyString, Some err)
              | None => mret (name, None)
              end
          end
      end
  end.

(** [RunRsyncJobOverSSH]; the calls of [log] are left out.  A service
    account name is ["default"] unless the option asks for the grant. *)
Definition RunRsyncJobOverSSH (t : task.Task) (serviceType : ServiceType)
    : prog (option error) :=
  let instanceId := task.ID t in
  let s := task.SourceInfo t in
  let sourceKubeClient := pvc.KubeClient s in
  let d := task.DestInfo t in
  let destKubeClient := pvc.KubeClient d in
  let opts := migration.Options_ (task.Migration t) in
  source ← (if migration.SourceCreatePSP opts
            then createPSPResources (pvc.KubeClient s) instanceId
                   (Claim_Namespace s)
            else mret ("default", None));
  match source with
  | (_, Some err) => mret (Some err)
  | (sourceSvcAccName, None) =>
  dest ← (if migration.DestCreatePSP opts
          then createPSPResources (pvc.KubeClient d) instanceId
                 (Claim_Namespace d)
          else mret ("default", None));
  match dest with
  | (_, Some err) => mret (Some err)
  | (destSvcAccName, None) =>
  keys ← perform (CreateSSHKeyPair (migration.KeyAlgorithm opts));
  match keys with
  | (_, _, Some err) => mret (Some err)
  | (publicKey, privateKey, None) =>
  r ← perform (createSshdPublicKeySecret instanceId s publicKey);
  match r with
  | Err err => mret (Some err)
  | Ok secret =>
  sftpPod ← perform (PrepareSshdPod instanceId s
                       (Name (Secret_ObjectMeta secret))
                       (migration.SshdImage (task.Migration t))
                       sourceSvcAccName);
  err ← perform (CreateSshdPodWaitTillRunning sourceKubeClient sftpPod);
  match err with
  | Some err => mret (Some err)
  | None =>
  r ← perform (CreateSshdService instanceId s serviceType);
  match r with
  | Err err => mret (Some err)
  | Ok createdService =>
  address ← perform (GetServiceAddress sourceKubeClient createdService);
  match address with
  | (_, Some err) => mret (Some err)
  | (targetHost, None) =>
  r ← createRsyncPrivateKeySecret instanceId d privateKey;
  match r with
  | Err err => mret (Some err)
  | Ok secret =>
  match buildRsyncJobDest t targetHost (Name (Secret_ObjectMeta secret))
          destSvcAccName with
  | Err err => mret (Some err)
  | Ok rsyncJob =>
  err ← perform (CreateJobWaitTillCompleted destKubeClient rsyncJob);
  match err with
  | Some err => mret (Some err)
  | None => mret None
  end end end end end end end end end end.

(** ** Running a program

    A handler answers each call and keeps a state of its own (the
    clusters, the entropy source, the clock).  [exec] runs a program
    against a handler and keeps the journal of the calls made, with their
    answers, in the order they were made. *)

Definition handler (S : Type) : Type := forall X : Type, call X -> S -> S * X.

Inductive entry : Type :=
| Entry {X : Type} (e : call X) (answer : X).

Fixpoint exec {S A : Type} (h : handler S) (p : prog A) (s : S)
    : S * list entry * A :=
  match p with
  | Return a => (s, [], a)
  | Call e k =>
      let (s1, x) := h _ e s in
      let '(s2, journal, a) := exec h (k x) s1 in
      (s2, Entry e x :: journal, a)
  end.

(** The error an entry of the journal carries, if the call failed. *)
Definition entry_err (en : entry) : option error :=
  match en with
  | @Entry _ e answer =>
      match e in call X return X -> option error with
      | PodSecurityPolicies_Create _ _ => result_err
      | ServiceAccounts_Create _ _ _ => result_err
      | Roles_Create _ _ _ => result_err
      | RoleBindings_Create _ _ _ => result_err
      | Secrets_Create _ _ _ => result_err
      | CreateSSHKeyPair _ => snd
      | createSshdPublicKeySecret _ _ _ => result_err
      | PrepareSshdPod _ _ _ _ _ => fun _ => None
      | CreateSshdPodWaitTillRunning _ _ => id
      | CreateSshdService _ _ _ => result_err
      | GetServiceAddress _ _ => snd
      | CreateJobWaitTillCompleted _ _ => id
      end answer
  end.

(** What a call asks for, without the answer: the kind of object it
    creates, the client, the namespace and the name; [None] for a call
    that is not a create of [client-go]. *)
Inductive kind :=
| KPodSecurityPolicy
| KServiceAccount
| KRole
| KRoleBinding
| KSecret.

Definition created {X : Type} (e : call X)
    : option (kind * clientset * string * string) :=
  match e with
  | PodSecurityPolicies_Create c psp =>
      Some (KPodSecurityPolicy, c, EmptyString,
            Name (PodSecurityPolicy_ObjectMeta psp))
  | ServiceAccounts_Create c ns sa =>
      Some (KServiceAccount, c, ns, Name (ServiceAccount_ObjectMeta sa))
  | Roles_Create c ns role =>
      Some (KRole, c, ns, Name (Role_ObjectMeta role))
  | RoleBindings_Create c ns rb =>
      Some (KRoleBinding, c, ns, Name (RoleBinding_ObjectMeta rb))
  | Secrets_Create c ns secret =>
      Some (KSecret, c, ns, Name (Secret_ObjectMeta secret))
  | _ => None
  end.

Definition entry_created (en : entry)
    : option (kind * clientset * string * string) :=
  match en with
  | @Entry _ e _ => created e
  end.

(** ** The API server

    The create contract of the Kubernetes API, as the object tracker of
    [client-go]'s fake clientset implements it: the namespace of the
    request is written into an object that has none, an object of another
    namespace is a bad request, a name that is taken is answered with
    "AlreadyExists" and leaves the store as it is. *)

(** [metav1.Object]: an object has metadata. *)
Class Object (T : Type) := {
  GetObjectMeta : T -> ObjectMeta;
  SetObjectMeta : ObjectMeta -> T -> T
}.

#[export] Instance Secret_Object : Object Secret := {|
  GetObjectMeta := Secret_ObjectMeta;
  SetObjectMeta m o := {| Secret_ObjectMeta := m; Data := Data o |}
|}.

#[export] Instance ServiceAccount_Object : Object ServiceAccount := {|
  GetObjectMeta := ServiceAccount_ObjectMeta;
  SetObjectMeta m o := {| ServiceAccount_ObjectMeta := m |}
|}.

#[export] Instance Role_Object : Object Role := {|
  GetObjectMeta := Role_ObjectMeta;
  SetObjectMeta m o := {| Role_ObjectMeta := m; Rules := Rules o |}
|}.

#[export] Instance RoleBinding_Object : Object RoleBinding := {|
  GetObjectMeta := RoleBinding_ObjectMeta;
  SetObjectMeta m o :=
    {| RoleBinding_ObjectMeta := m;
       Subjects := Subjects o;
       RoleBinding_RoleRef := RoleBinding_RoleRef o |}
|}.

#[export] Instance PodSecurityPolicy_Object : Object PodSecurityPolicy := {|
  GetObjectMeta := PodSecurityPolicy_ObjectMeta;
  SetObjectMeta m o :=
    {| PodSecurityPolicy_ObjectMeta := m;
       PodSecurityPolicy_Spec := PodSecurityPolicy_Spec o |}
|}.

Definition alreadyExists (name : string) : error :=
  StatusError StatusReasonAlreadyExists (q name +:+ " already exists").

Definition namespaceMismatch : error :=
  StatusError StatusReasonBadRequest
    "request namespace does not match object namespace".

(** The tracker's [add] for one kind of object; the objects of a kind are
    kept by namespace and name, cluster-scoped ones under the empty
    namespace. *)
Definition tracker_add {T : Type} `{Object T} (ns : string) (obj : T)
    (objects : gmap (string * string) T)
    : gmap (string * string) T * result T :=
  let m := GetObjectMeta obj in
  let m' :=
    if String.eqb (Namespace m) EmptyString
    then {| Name := Name m; Namespace := ns; Labels := Labels m |}
    else m in
  if negb (String.eqb (Namespace m') ns) then (objects, Err namespaceMismatch)
  else
    match objects !! (ns, Name m') with
    | Some _ => (objects, Err (alreadyExists (Name m')))
    | None =>
        let obj' := SetObjectMeta m' obj in
        (<[ (ns, Name m') := obj' ]> objects, Ok obj')
    end.

(** What one cluster holds. *)
Record cluster := {
  podSecurityPolicies : gmap (string * string) PodSecurityPolicy;
  serviceAccounts : gmap (string * string) ServiceAccount;
  roles : gmap (string * string) Role;
  roleBindings : gmap (string * string) RoleBinding;
  secrets : gmap (string * string) Secret
}.

Definition emptyCluster : cluster :=
  {| podSecurityPolicies := ∅; serviceAccounts := ∅; roles := ∅;
     roleBindings := ∅; secrets := ∅ |}.

(** The clusters, by client.  A client that was never used talks to an
    empty cluster. *)
Definition world := gmap clientset cluster.

Definition the_cluster (w : gmap clientset cluster) (c : clientset) : cluster :=
  default emptyCluster (w !! c).

(** The handler of the calls of [client-go]; [rest] answers the calls to
    the rest of the repository. *)
Definition apiserver (rest : handler (gmap clientset cluster))
    : handler (gmap clientset cluster) :=
  fun X e =>
    match e in call X return gmap clientset cluster ->
                             gmap clientset cluster * X with
    | PodSecurityPolicies_Create c psp => fun w =>
        let cl := the_cluster w c in
        let (objects, r) :=
          tracker_add EmptyString psp (podSecurityPolicies cl) in
        (<[ c := {| podSecurityPolicies := objects;
                    serviceAccounts := serviceAccounts cl;
                    roles := roles cl;
                    roleBindings := roleBindings cl;
                    secrets := secrets cl |} ]> w, r)
    | ServiceAccounts_Create c ns sa => fun w =>
        let cl := the_cluster w c in
        let (objects, r) := tracker_add ns sa (serviceAccounts cl) in
        (<[ c := {| podSecurityPolicies := podSecurityPolicies cl;
                    serviceAccounts := objects;
                    roles := roles cl;
                    roleBindings := roleBindings cl;
                    secrets := secrets cl |} ]> w, r)
    | Roles_Create c ns role => fun w =>
        let cl := the_cluster w c in
        let (objects, r) := tracker_add ns role (roles cl) in
        (<[ c := {| podSecurityPolicies := podSecurityPolicies cl;
                    serviceAccounts := serviceAccounts cl;
                    roles := objects;
                    roleBindings := roleBindings cl;
                    secrets := secrets cl |} ]> w, r)
    | RoleBindings_Create c ns rb => fun w =>
        let cl := the_cluster w c in
        let (objects, r) := tracker_add ns rb (roleBindings cl) in
        (<[ c := {| podSecurityPolicies := podSecurityPolicies cl;
                    serviceAccounts := serviceAccounts cl;
                    roles := roles cl;
                    roleBindings := objects;
                    secrets := secrets cl |} ]> w, r)
    | Secrets_Create c ns secret => fun w =>
        let cl := the_cluster w c in
        let (objects, r) := tracker_add ns secret (secrets cl) in
        (<[ c := {| podSecurityPolicies := podSecurityPolicies cl;
                    serviceAccounts := serviceAccounts cl;
                    roles := roles cl;
                    roleBindings := roleBindings cl;
                    secrets := objects |} ]> w, r)
    | CreateSSHKeyPair a => rest _ (CreateSSHKeyPair a)
    | createSshdPublicKeySecret i p k =>
        rest _ (createSshdPublicKeySecret i p k)
    | PrepareSshdPod i p n im sa => rest _ (PrepareSshdPod i p n im sa)
    | CreateSshdPodWaitTillRunning c pod =>
        rest _ (CreateSshdPodWaitTillRunning c pod)
    | CreateSshdService i p st => rest _ (CreateSshdService i p st)
    | GetServiceAddress c svc => rest _ (GetServiceAddress c svc)
    | CreateJobWaitTillCompleted c job =>
        rest _ (CreateJobWaitTillCompleted c job)
    end.

(** ** A test double for the rest of the repository

    Every call succeeds at once with a fixed answer and changes nothing:
    the key pair is a pair of fixed strings, the sshd secret, pod and
    service are named after the instance, the service address is a fixed
    cluster-internal name, the pod runs and the job completes. *)

Module Double.
Definition named (name : string) (pvcInfo : pvc.Info) : ObjectMeta :=
  {| Name := name; Namespace := Claim_Namespace pvcInfo; Labels := ∅ |}.

Definition rest : handler (gmap clientset cluster) :=
  fun X e =>
    match e in call X return gmap clientset cluster ->
                             gmap clientset cluster * X with
    | CreateSSHKeyPair _ => fun w => (w, ("PUBLIC", "PRIVATE", None))
    | createSshdPublicKeySecret i p k => fun w =>
        (w, Ok {| Secret_ObjectMeta := named ("pv-migrate-sshd-" +:+ i) p;
                  Data := {[ "publicKey" := k ]} |})
    | PrepareSshdPod i p n im sa => fun w =>
        (w, {| Pod_ObjectMeta := named ("pv-migrate-sshd-" +:+ i) p;
               Pod_Spec :=
                 {| ServiceAccountName := sa; Volumes := [];
                    Containers := []; NodeName := pvc.MountedNode p;
                    PodSpec_RestartPolicy := RestartPolicyAlways |} |})
    | CreateSshdPodWaitTillRunning _ _ => fun w => (w, None)
    | CreateSshdService i p st => fun w =>
        (w, Ok {| Service_ObjectMeta := named ("pv-migrate-sshd-" +:+ i) p;
                  Service_Type := st |})
    | GetServiceAddress _ svc => fun w =>
        (w, (Name (Service_ObjectMeta svc) +:+ "." +:+
             Namespace (Service_ObjectMeta svc), None))
    | CreateJobWaitTillCompleted _ _ => fun w => (w, None)
    | PodSecurityPolicies_Create _ psp => fun w => (w, Ok psp)
    | ServiceAccounts_Create _ _ sa => fun w => (w, Ok sa)
    | Roles_Create _ _ role => fun w => (w, Ok role)
    | RoleBindings_Create _ _ rb => fun w => (w, Ok rb)
    | Secrets_Create _ _ secret => fun w => (w, Ok secret)
    end.

(** A migration between two claims of one cluster, in two namespaces. *)
Definition info (ns name : string) : pvc.Info :=
  {| pvc.KubeClient := 0%nat;
     pvc.Claim :=
       {| PersistentVolumeClaim_ObjectMeta :=
            {| Name := name; Namespace := ns; Labels := ∅ |} |};
     pvc.MountedNode := "node-1" |}.

Definition aTask (sourceCreatePSP destCreatePSP : bool) : task.Task :=
  {| task.ID := "abcde";
     task.SourceInfo := info "ns-a" "old";
     task.DestInfo := info "ns-b" "new";
     task.Migration :=
       {| migration.Options_ :=
            {| migration.DeleteExtraneousFiles := false;
               migration.NoChown := false;
               migration.KeyAlgorithm := "ed25519";
               migration.SourceCreatePSP := sourceCreatePSP;
               migration.DestCreatePSP := destCreatePSP |};
          migration.RsyncImage := "rsync:latest";
          migration.SshdImage := "sshd:latest" |} |}.
End Double.

(** ** Reading a script and a set of names *)

(** The lines of a text, as [strings.Split] on the line feed gives them. *)
Fixpoint lines (s : string) : list string :=
  match s with
  | EmptyString => [EmptyString]
  | String c rest =>
      if Ascii.eqb c "010"%char then EmptyString :: lines rest
      else
        match lines rest with
        | [] => [String c EmptyString]
        | l :: ls => String c l :: ls
        end
  end.

Definition has_line (text line : string) : bool :=
  existsb (String.eqb line) (lines text).

(** The rsync command of the script has one argument on each continuation
    line: four spaces, the argument text, a space and a backslash. *)
Definition argLine (arg : string) : string := cat ["    "; arg; " "; bs].

Definition has_arg (text arg : string) : bool := has_line text (argLine arg).

Definition sshOption : string :=
  cat ["-e "; dq;
       "ssh -o StrictHostKeyChecking=no -o UserKnownHostsFile=/dev/null -o ConnectTimeout=";
       itoa sshConnectTimeoutSecs; dq].

(** What the script of a parameter triple is said to show: the delete flag
    exactly when asked for, the no-chown flags exactly when asked for, and
    the remote source of the host with the ssh option exactly when there
    is a host, the local source otherwise. *)
Definition script_reflects (deleteExtraneousFiles noChown : bool)
    (sshTargetHost : string) : Prop :=
  let text := (BuildRsyncScript deleteExtraneousFiles noChown sshTargetHost).1 in
  has_arg text "--delete" = deleteExtraneousFiles /\
  has_arg text "--no-o --no-g" = noChown /\
  if String.eqb sshTargetHost EmptyString
  then has_arg text "/source/" = true /\ has_arg text sshOption = false
  else has_arg text (cat ["root@"; sshTargetHost; ":/source/"]) = true /\
       has_arg text sshOption = true /\
       has_arg text "/source/" = false.

(** A host that the template writes as it is and that stays on its line:
    no byte of it has an HTML replacement or is a line feed. *)
Definition plainHostByte (c : ascii) : bool :=
  match htmlReplacement c with
  | Some _ => false
  | None => negb (Ascii.eqb c "010"%char)
  end.

Fixpoint plainHost (host : string) : bool :=
  match host with
  | EmptyString => true
  | String c rest => plainHostByte c && plainHost rest
  end.

(** Gluing the last line of one text to the first line of the next. *)
Fixpoint glue (xs ys : list string) : list string :=
  match xs with
  | [] => ys
  | [x] =>
      match ys with
      | [] => [x]
      | y :: ys' => (x +:+ y) :: ys'
      end
  | x :: xs' => x :: glue xs' ys
  end.

(** The text of the script, piece by piece. *)
Definition scriptHead : string :=
  cat [nl; "n=0"; nl; "rc=1"; nl; "retries=10"; nl;
       "until [ "; q "$n"; " -ge "; q "$retries"; " ]"; nl;
       "do"; nl;
       "  rsync "; bs; nl;
       "    -avzh "; bs; nl;
       "    --progress "; bs; nl;
       "    "].

Definition scriptTail : string :=
  cat ["/dest/ && "; bs; nl;
       "    rc=0 && "; bs; nl;
       "    break"; nl;
       "  n=$((n+1))"; nl;
       "  echo ";
       q "rsync attempt $n/10 failed, waiting 5 seconds before trying again";
       nl;
       "  sleep 5"; nl;
       "done"; nl;
       nl;
       "if [ $rc -ne 0 ]; then"; nl;
       "  echo "; q "Rsync job failed after $retries retries"; nl;
       "fi"; nl;
       "exit $rc"; nl].

Definition scriptFlags (deleteExtraneousFiles noChown : bool) : string :=
  (if deleteExtraneousFiles then cat ["--delete "; bs; nl; "    "]
   else EmptyString) +:+
  (if noChown then cat ["--no-o --no-g "; bs; nl; "    "] else EmptyString).

Definition scriptSource (sshTargetHost : string) : string :=
  if String.eqb sshTargetHost EmptyString
  then cat ["/source/ "; bs; nl; "    "]
  else cat [sshOption; " "; bs; nl; "    root@"] +:+
       htmlReplacer sshTargetHost +:+ cat [":/source/ "; bs; nl; "    "].

(** The lines of the script: what comes before the arguments that depend
    on the parameters, those arguments, and what comes after. *)
Definition preLines : list string :=
  [ EmptyString; "n=0"; "rc=1"; "retries=10";
    cat ["until [ "; q "$n"; " -ge "; q "$retries"; " ]"];
    "do";
    cat ["  rsync "; bs];
    argLine "-avzh";
    argLine "--progress" ].

Definition argLines (deleteExtraneousFiles noChown : bool)
    (sshTargetHost : string) : list string :=
  (if deleteExtraneousFiles then [argLine "--delete"] else []) ++
  (if noChown then [argLine "--no-o --no-g"] else []) ++
  (if String.eqb sshTargetHost EmptyString then [argLine "/source/"]
   else [argLine sshOption;
         argLine (cat ["root@"; sshTargetHost; ":/source/"])]).

Definition postLines : list string :=
  [ cat ["    /dest/ && "; bs];
    cat ["    rc=0 && "; bs];
    "    break";
    "  n=$((n+1))";
    cat ["  echo ";
         q "rsync attempt $n/10 failed, waiting 5 seconds before trying again"];
    "  sleep 5";
    "done";
    EmptyString;
    "if [ $rc -ne 0 ]; then";
    cat ["  echo "; q "Rsync job failed after $retries retries"];
    "fi";
    "exit $rc";
    EmptyString ].

(** The names of the objects of one instance: the secret of
    [createRsyncPrivateKeySecret], the job of [buildRsyncJobDest], and the
    service account, role and role binding of [createPSPResources], which
    share one name. *)
Definition secretName (id : string) : string := "pv-migrate-rsync-" +:+ id.
Definition jobName (id : string) : string := "pv-migrate-rsync-" +:+ id.
Definition grantName (id : string) : string := "pv-migrate-" +:+ id.

Definition ephemeralNames (id : string) : gset string :=
  {[ secretName id; jobName id; grantName id ]}.

(** The same objects with their kinds. *)
Definition ephemeralObjects (id : string) : gset (string * string) :=
  {[ ("Secret", secretName id); ("Job", jobName id);
     ("ServiceAccount", grantName id); ("Role", grantName id);
     ("RoleBinding", grantName id) ]}.

(** The metadata of an object is said to carry the common identity of the instance when, for some
    component tag, the name is [pv-migrate-<tag>-<id>] and the labels are
    the common label set. *)
Definition carriesIdentity (id : string) (m : ObjectMeta) : Prop :=
  exists tag : string,
    Name m = "pv-migrate" +:+ "-" +:+ tag +:+ "-" +:+ id /\
    Labels m = k8s.ComponentLabels id tag.

(** Two instances are said not to collide when no name of one is a name
    of the other. *)
Definition names_disjoint (id1 id2 : string) : Prop :=
  ephemeralNames id1 ## ephemeralNames id2.

(** ** Reading a journal *)

(** How many objects the calls of a journal brought into being: the
    creates that were answered with the object. *)
Definition creations (journal : list entry) : nat :=
  length (filter (fun en => bool_decide (is_Some (entry_created en)) &&
                            bool_decide (entry_err en = None)) journal).

(** The error of a step as the package judges it: an "AlreadyExists" on
    the shared policy is no error, every other error is. *)
Definition step_err (en : entry) : option error :=
  match entry_created en with
  | Some (KPodSecurityPolicy, _, _, _) =>
      if IsAlreadyExists (entry_err en) then None else entry_err en
  | _ => entry_err en
  end.

(** The four creates of an access grant, in the order of the source. *)
Definition grantRequests (c : clientset) (id ns : string)
    : list (kind * clientset * string * string) :=
  [ (KPodSecurityPolicy, c, EmptyString, pspName);
    (KServiceAccount, c, ns, grantName id);
    (KRole, c, ns, grantName id);
    (KRoleBinding, c, ns, grantName id) ].

(** The one rule of a minimal grant, and what a call of a minimal grant
    may ask for: the role holds that rule and nothing else, the role
    binding binds the service account of the instance, and nothing but it,
    to the role of the instance in the same namespace. *)
Definition usePolicyRule : PolicyRule :=
  {| Verbs := [ "use" ];
     APIGroups := [ "policy" ];
     Resources := [ "podsecuritypolicies" ];
     ResourceNames := [ "pv-migrate" ] |}.

Definition minimalGrantCall (c : clientset) (id ns : string)
    {X : Type} (e : call X) : Prop :=
  match e with
  | PodSecurityPolicies_Create c' psp =>
      c' = c /\ Name (PodSecurityPolicy_ObjectMeta psp) = "pv-migrate"
  | ServiceAccounts_Create c' ns' sa =>
      c' = c /\ ns' = ns /\
      Name (ServiceAccount_ObjectMeta sa) = "pv-migrate-" +:+ id
  | Roles_Create c' ns' role =>
      c' = c /\ ns' = ns /\
      Name (Role_ObjectMeta role) = "pv-migrate-" +:+ id /\
      Namespace (Role_ObjectMeta role) = ns /\
      Rules role = [ usePolicyRule ]
  | RoleBindings_Create c' ns' rb =>
      c' = c /\ ns' = ns /\
      Name (RoleBinding_ObjectMeta rb) = "pv-migrate-" +:+ id /\
      Namespace (RoleBinding_ObjectMeta rb) = ns /\
      Subjects rb = [ {| Subject_Kind := "ServiceAccount";
                         Subject_Name := "pv-migrate-" +:+ id |} ] /\
      RoleBinding_RoleRef rb =
        {| RoleRef_APIGroup := "rbac.authorization.k8s.io";
           RoleRef_Kind := "Role";
           RoleRef_Name := "pv-migrate-" +:+ id |}
  | _ => False
  end.

Definition entry_call_is (P : forall X : Type, call X -> Prop) (en : entry)
    : Prop :=
  match en with
  | @Entry X e _ => P X e
  end.

(** ** Reasoning about every run of a program *)

(** [always P Q p]: whatever the calls are answered, every call that [p]
    makes satisfies [P] and every value it returns satisfies [Q]. *)
Fixpoint always {A : Type} (P : forall X : Type, call X -> Prop)
    (Q : A -> Prop) (p : prog A) : Prop :=
  match p with
  | Return a => Q a
  | Call e k => P _ e /\ forall x, always P Q (k x)
  end.

(** The jobs a journal shows to have been handed over for creation, and
    the service accounts they run under. *)
Definition jobsSubmitted (journal : list entry) : list Job :=
  omap (fun en =>
          match en with
          | @Entry _ e _ =>
              match e with
              | CreateJobWaitTillCompleted _ job => Some job
              | _ => None
              end
          end) journal.

Definition jobServiceAccounts (journal : list entry) : list string :=
  map (fun job => ServiceAccountName (PodTemplateSpec_Spec (Template (Job_Spec job))))
      (jobsSubmitted journal).

(** The secrets a journal shows to have been sent through [client-go],
    with the client and the namespace of the request. *)
Definition secretsSent (journal : list entry)
    : list (clientset * string * Secret) :=
  omap (fun en =>
          match en with
          | @Entry _ e _ =>
              match e with
              | Secrets_Create c ns secret => Some (c, ns, secret)
              | _ => None
              end
          end) journal.

(** The secret volumes of a job and the mounts of a volume in its
    containers. *)
Definition secretVolumes (job : Job) : list (string * SecretVolumeSource) :=
  omap (fun v => pair (Volume_Name v) <$>
                 VolumeSource_Secret (Volume_VolumeSource v))
       (Volumes (PodTemplateSpec_Spec (Template (Job_Spec job)))).

Definition claimVolumes (job : Job)
    : list (string * PersistentVolumeClaimVolumeSource) :=
  omap (fun v => pair (Volume_Name v) <$>
                 VolumeSource_PersistentVolumeClaim (Volume_VolumeSource v))
       (Volumes (PodTemplateSpec_Spec (Template (Job_Spec job)))).

Definition mountsOf (volume : string) (job : Job) : list VolumeMount :=
  filter (fun m => VolumeMount_Name m = volume)
    (concat (map VolumeMounts
               (Containers (PodTemplateSpec_Spec (Template (Job_Spec job)))))).

(** The rsync job is said always to run under the service account of the
    access grant of its instance. *)
Definition job_runs_under_grant (t : task.Task) (serviceType : ServiceType)
    {S : Type} (h : handler S) (s : S) : Prop :=
  let '(_, journal, _) := exec h (RunRsyncJobOverSSH t serviceType) s in
  Forall (fun sa => sa = grantName (task.ID t)) (jobServiceAccounts journal).

(** The service account [RunRsyncJobOverSSH] hands to [buildRsyncJobDest]:
    that of the grant if the option asks for one on the destination side,
    the default one of the namespace otherwise. *)
Definition destSvcAccName (t : task.Task) : string :=
  if migration.DestCreatePSP (migration.Options_ (task.Migration t))
  then "pv-migrate-" +:+ task.ID t
  else "default".

(** What the calls of [RunRsyncJobOverSSH] are bound to: a secret it
    creates itself is the private-key secret of the instance, sent to the
    client and the namespace of the destination claim; a job it hands over
    is one that [buildRsyncJobDest] built for [destSvcAccName], sent to the
    client of the destination claim. *)
Definition runCall (t : task.Task) {X : Type} (e : call X) : Prop :=
  let d := task.DestInfo t in
  match e with
  | Secrets_Create c ns secret =>
      c = pvc.KubeClient d /\ ns = Claim_Namespace d /\
      exists privateKey : string,
        secret = rsyncPrivateKeySecret (task.ID t) d privateKey
  | CreateJobWaitTillCompleted c job =>
      c = pvc.KubeClient d /\
      exists targetHost privateKeySecretName : string,
        buildRsyncJobDest t targetHost privateKeySecretName (destSvcAccName t)
        = Ok job
  | _ => True
  end.

(** ** The shape of a run of the script *)

(** The events of a run follow one pattern: any number of failed attempts,
    each an invocation that does not exit zero, its message and a sleep of
    [d] seconds; then either one invocation that exits zero, or the closing
    message, and nothing after it. *)
Fixpoint paced (d : Z) (evs : list Sh.event) : Prop :=
  match evs with
  | [] => False
  | Sh.Rsync status :: rest =>
      if status =? 0 then rest = []
      else
        match rest with
        | Sh.Echo _ :: Sh.Sleep d' :: rest' => d' = d /\ paced d rest'
        | _ => False
        end
  | Sh.Echo _ :: rest => rest = []
  | Sh.Sleep _ :: _ => False
  end.

(** ** The state of a cluster after a create *)

Definition setPodSecurityPolicies
    (objects : gmap (string * string) PodSecurityPolicy) (cl : cluster)
    : cluster :=
  {| podSecurityPolicies := objects;
     serviceAccounts := serviceAccounts cl;
     roles := roles cl;
     roleBindings := roleBindings cl;
     secrets := secrets cl |}.

Definition setServiceAccounts
    (objects : gmap (string * string) ServiceAccount) (cl : cluster)
    : cluster :=
  {| podSecurityPolicies := podSecurityPolicies cl;
     serviceAccounts := objects;
     roles := roles cl;
     roleBindings := roleBindings cl;
     secrets := secrets cl |}.

Definition setRoles (objects : gmap (string * string) Role) (cl : cluster)
    : cluster :=
  {| podSecurityPolicies := podSecurityPolicies cl;
     serviceAccounts := serviceAccounts cl;
     roles := objects;
     roleBindings := roleBindings cl;
     secrets := secrets cl |}.

Definition setRoleBindings
    (objects : gmap (string * string) RoleBinding) (cl : cluster) : cluster :=
  {| podSecurityPolicies := podSecurityPolicies cl;
     serviceAccounts := serviceAccounts cl;
     roles := roles cl;
     roleBindings := objects;
     secrets := secrets cl |}.

Definition setSecrets (objects : gmap (string * string) Secret)
    (cl : cluster) : cluster :=
  {| podSecurityPolicies := podSecurityPolicies cl;
     serviceAccounts := serviceAccounts cl;
     roles := roles cl;
     roleBindings := roleBindings cl;
     secrets := objects |}.

(** The service account of a grant as the API server keeps it: with the
    namespace of the request written into it. *)
Definition storedServiceAccount (id ns : string) : ServiceAccount :=
  {| ServiceAccount_ObjectMeta :=
       {| Name := "pv-migrate-" +:+ id; Namespace := ns; Labels := ∅ |} |}.

(** What [createPSPResources] makes of one cluster when the API server
    keeps the create contract: the cluster it leaves and what it
    returns. *)
Definition grantOutcome (cl : cluster) (id ns : string)
    : cluster * (string * option error) :=
  let key := (ns, grantName id) in
  let taken := (EmptyString, Some (alreadyExists (grantName id))) in
  let cl1 :=
    match podSecurityPolicies cl !! (EmptyString, pspName) with
    | Some _ => cl
    | None =>
        setPodSecurityPolicies
          (<[(EmptyString, pspName) := sharedPolicy]> (podSecurityPolicies cl))
          cl
    end in
  match serviceAccounts cl1 !! key with
  | Some _ => (cl1, taken)
  | None =>
      let cl2 :=
        setServiceAccounts
          (<[key := storedServiceAccount id ns]> (serviceAccounts cl1)) cl1 in
      match roles cl2 !! key with
      | Some _ => (cl2, taken)
      | None =>
          let cl3 := setRoles (<[key := grantRole id ns]> (roles cl2)) cl2 in
          match roleBindings cl3 !! key with
          | Some _ => (cl3, taken)
          | None =>
              (setRoleBindings
                 (<[key := grantRoleBinding id ns]> (roleBindings cl3)) cl3,
               (grantName id, None))
          end
      end
  end.

(** A policy that another tool left in the cluster under the name of the
    shared policy, and that allows no volume at all. *)
Definition strangerPolicy : PodSecurityPolicy :=
  {| PodSecurityPolicy_ObjectMeta :=
       {| Name := pspName; Namespace := EmptyString; Labels := ∅ |};
     PodSecurityPolicy_Spec :=
       {| RunAsUser := "MustRunAsNonRoot";
          RunAsGroup := None;
          FSGroup := "MustRunAs";
          SELinux := "MustRunAs";
          SupplementalGroups := "MustRunAs";
          PodSecurityPolicySpec_Volumes := [] |} |}.

(** ** Reasoning about every run, with what came before *)

(** [alwaysH P Q hist p]: whatever the calls are answered, every call [p]
    makes satisfies [P] of the journal up to that call, and every value it
    returns satisfies [Q] of the whole journal; [hist] is the journal
    before [p] starts. *)
Fixpoint alwaysH {A : Type} (P : list entry -> forall X : Type, call X -> Prop)
    (Q : list entry -> A -> Prop) (hist : list entry) (p : prog A) : Prop :=
  match p with
  | Return a => Q hist a
  | Call e k => P hist _ e /\ forall x, alwaysH P Q (hist ++ [Entry e x]) (k x)
  end.

(** Every entry of a journal satisfies [P] of the entries before it. *)
Fixpoint eachAfter (P : list entry -> forall X : Type, call X -> Prop)
    (hist journal : list entry) : Prop :=
  match journal with
  | [] => True
  | en :: rest => entry_call_is (P hist) en /\ eachAfter P (hist ++ [en]) rest
  end.

(** What a journal shows to have been answered without error: the key
    pairs generated, the secrets created for the public key, the pods
    prepared, the services created, the addresses resolved and the secrets
    created through [client-go]. *)
Definition answered {T : Type} (pick : forall X : Type, call X -> X -> option T)
    (journal : list entry) : list T :=
  omap (fun en => match en with @Entry X e x => pick X e x end) journal.

Definition keyPairs : list entry -> list (string * string) :=
  answered (fun X e =>
    match e in call X return X -> option (string * string) with
    | CreateSSHKeyPair _ => fun x =>
        match x with
        | (publicKey, privateKey, None) => Some (publicKey, privateKey)
        | _ => None
        end
    | _ => fun _ => None
    end).

Definition publicKeySecrets : list entry -> list Secret :=
  answered (fun X e =>
    match e in call X return X -> option Secret with
    | createSshdPublicKeySecret _ _ _ => fun x =>
        match x with Ok secret => Some secret | Err _ => None end
    | _ => fun _ => None
    end).

Definition podsPrepared : list entry -> list Pod :=
  answered (fun X e =>
    match e in call X return X -> option Pod with
    | PrepareSshdPod _ _ _ _ _ => fun x => Some x
    | _ => fun _ => None
    end).

Definition servicesCreated : list entry -> list Service :=
  answered (fun X e =>
    match e in call X return X -> option Service with
    | CreateSshdService _ _ _ => fun x =>
        match x with Ok service => Some service | Err _ => None end
    | _ => fun _ => None
    end).

Definition addressesResolved : list entry -> list string :=
  answered (fun X e =>
    match e in call X return X -> option string with
    | GetServiceAddress _ _ => fun x =>
        match x with (address, None) => Some address | _ => None end
    | _ => fun _ => None
    end).

Definition secretsCreated : list entry -> list Secret :=
  answered (fun X e =>
    match e in call X return X -> option Secret with
    | Secrets_Create _ _ _ => fun x =>
        match x with Ok secret => Some secret | Err _ => None end
    | _ => fun _ => None
    end).

(** The service account [RunRsyncJobOverSSH] hands to [PrepareSshdPod]. *)
Definition sourceSvcAccName (t : task.Task) : string :=
  if migration.SourceCreatePSP (migration.Options_ (task.Migration t))
  then "pv-migrate-" +:+ task.ID t
  else "default".

(** The job of a run is wired to what the run obtained before: it is
    handed to the client of the destination claim, built for the address
    that was resolved for the sshd service and for the name of the secret
    that the API returned. *)
Definition jobWiring (t : task.Task) (hist : list entry) (X : Type)
    (e : call X) : Prop :=
  match e with
  | CreateJobWaitTillCompleted c job =>
      c = pvc.KubeClient (task.DestInfo t) /\
      exists (targetHost : string) (secret : Secret),
        addressesResolved hist = [targetHost] /\
        secretsCreated hist = [secret] /\
        buildRsyncJobDest t targetHost (Name (Secret_ObjectMeta secret))
          (destSvcAccName t) = Ok job
  | _ => True
  end.

(** Walking through a program: at each call the obligation for the call is
    split off and the answer is taken apart as far as the program looks at
    it. *)
Ltac walk :=
  repeat
    match goal with
    | |- _ /\ (forall _, _) => split; [| intros ?]
    | |- context [alwaysH _ _ _ ?p] =>
        match p with
        | context [match buildRsyncJobDest ?a ?b ?c ?d with _ => _ end] =>
            destruct (buildRsyncJobDest a b c d) eqn:?
        | context [result_err ?x] => is_var x; destruct x
        | context [IsAlreadyExists None] =>
            change (IsAlreadyExists None) with false
        | context [IsAlreadyExists ?x] =>
            let H := fresh "Hexists" in destruct (IsAlreadyExists x) eqn:H
        | context [match ?x with _ => _ end] => is_var x; destruct x
        end
    | |- context [alwaysH] =>
        progress cbn [alwaysH bind mbind prog_bind perform mret prog_ret
                      createPSPResources ensurePSP result_err
                      createRsyncPrivateKeySecret]
    end.

(** The key pair of a run goes where it belongs: it is generated for the
    algorithm of the options, when no pair has been generated yet; the
    secret for the sshd side, made for the source claim, gets the public
    half of that pair; the secret that the function creates itself, in the
    namespace of the destination claim, holds the private half. *)
Definition keyFlow (t : task.Task) (hist : list entry) (X : Type)
    (e : call X) : Prop :=
  match e with
  | CreateSSHKeyPair keyAlgorithm =>
      keyAlgorithm
      = migration.KeyAlgorithm (migration.Options_ (task.Migration t)) /\
      keyPairs hist = []
  | createSshdPublicKeySecret instanceId pvcInfo publicKey =>
      instanceId = task.ID t /\ pvcInfo = task.SourceInfo t /\
      exists privateKey : string, keyPairs hist = [(publicKey, privateKey)]
  | Secrets_Create c ns secret =>
      c = pvc.KubeClient (task.DestInfo t) /\
      ns = Claim_Namespace (task.DestInfo t) /\
      exists publicKey privateKey : string,
        keyPairs hist = [(publicKey, privateKey)] /\
        secret = rsyncPrivateKeySecret (task.ID t) (task.DestInfo t) privateKey
  | _ => True
  end.

(** The sshd side of a run is wired to what the run obtained before: the
    pod is prepared for the source claim with the image of the migration,
    the service account of the source side and the name of the secret
    that was returned for the public key; the pod that is waited for is
    the pod that was prepared; the service is created for the source claim
    with the service type of the caller; the address is asked for the
    service that was created.  All of it goes to the client of the source
    claim. *)
Definition sshdWiring (t : task.Task) (serviceType : ServiceType)
    (hist : list entry) (X : Type) (e : call X) : Prop :=
  match e with
  | PrepareSshdPod instanceId pvcInfo secretName sshdImage svcAccName =>
      instanceId = task.ID t /\ pvcInfo = task.SourceInfo t /\
      sshdImage = migration.SshdImage (task.Migration t) /\
      svcAccName = sourceSvcAccName t /\
      exists secret : Secret,
        publicKeySecrets hist = [secret] /\
        secretName = Name (Secret_ObjectMeta secret)
  | CreateSshdPodWaitTillRunning c pod =>
      c = pvc.KubeClient (task.SourceInfo t) /\ podsPrepared hist = [pod]
  | CreateSshdService instanceId pvcInfo serviceType' =>
      instanceId = task.ID t /\ pvcInfo = task.SourceInfo t /\
      serviceType' = serviceType
  | GetServiceAddress c service =>
      c = pvc.KubeClient (task.SourceInfo t) /\
      servicesCreated hist = [service]
  | _ => True
  end.

(** The steps of [RunRsyncJobOverSSH] in the order of the source: the
    creates of the access grants are step 0, the eight steps that follow
    are numbered 1 to 8. *)
Definition step {X : Type} (e : call X) : nat :=
  match e with
  | PodSecurityPolicies_Create _ _ => 0
  | ServiceAccounts_Create _ _ _ => 0
  | Roles_Create _ _ _ => 0
  | RoleBindings_Create _ _ _ => 0
  | CreateSSHKeyPair _ => 1
  | createSshdPublicKeySecret _ _ _ => 2
  | PrepareSshdPod _ _ _ _ _ => 3
  | CreateSshdPodWaitTillRunning _ _ => 4
  | CreateSshdService _ _ _ => 5
  | GetServiceAddress _ _ => 6
  | Secrets_Create _ _ _ => 7
  | CreateJobWaitTillCompleted _ _ => 8
  end%nat.

Definition entry_step (en : entry) : nat :=
  match en with
  | @Entry _ e _ => step e
  end.

(** The steps that a journal shows after the grants. *)
Fixpoint laterSteps (journal : list entry) : list nat :=
  match journal with
  | [] => []
  | en :: rest =>
      match entry_step en with
      | O => laterSteps rest
      | S k => S k :: laterSteps rest
      end
  end.

(** A call is in order when a create of a grant has only creates of grants
    before it, and step [k+1] has the steps 1 to [k] before it, each once,
    in this order. *)
Definition inOrder (hist : list entry) (X : Type) (e : call X) : Prop :=
  match step e with
  | O => laterSteps hist = []
  | S k => laterSteps hist = seq 1 k
  end.

(** A run ends well when its last call decides what it returns: all
    calls before the last succeeded, the error of the last call is the
    error returned, and a run without error has the job as its last
    call. *)
Definition endsWithLastCall (journal : list entry) (err : option error)
    : Prop :=
  exists (before : list entry) (last : entry),
    journal = before ++ [last] /\
    Forall (fun en => step_err en = None) before /\
    step_err last = err /\
    (err = None -> entry_step last = 8%nat).

(** ** Reading a pod *)

(** The volume types a volume source uses, by the names that a pod
    security policy lists. *)
Definition fsTypes (source : VolumeSource) : list string :=
  match VolumeSource_PersistentVolumeClaim source with
  | Some _ => [FSType_PersistentVolumeClaim]
  | None => []
  end ++
  match VolumeSource_Secret source with
  | Some _ => [FSType_Secret]
  | None => []
  end.

(** The pod of a job. *)
Definition podOf (job : Job) : PodSpec :=
  PodTemplateSpec_Spec (Template (Job_Spec job)).

(** The mounts of all containers of a pod. *)
Definition allMounts (spec : PodSpec) : list VolumeMount :=
  concat (map VolumeMounts (Containers spec)).

(** ** Counting bytes *)

Fixpoint occurrences (b : ascii) (s : string) : nat :=
  match s with
  | EmptyString => O
  | String c rest =>
      (if Ascii.eqb c b then 1 else 0) + occurrences b rest
  end%nat.

(** The bytes that the template replaces and that no replacement
    contains: NUL, the double quote, the apostrophe, the plus sign and the
    angle brackets. *)
Definition replacedBytes : list ascii :=
  [ "000"%char; "034"%char; "039"%char; "043"%char; "060"%char; "062"%char ].

(** ** Package [app]: the [migrate] command

    The command is built with [cobra] and [pflag].  A flag set is what
    [pflag] keeps: the flags by name and the names by shorthand.  Adding a
    flag whose name or shorthand is taken panics; a panic is [None]. *)

Module pflag.

Inductive Value :=
| StringValue (s : string)
| BoolValue (b : bool)
| StringSliceValue (l : list string).

(** [Value.Type()]. *)
Definition Type_ (v : Value) : string :=
  match v with
  | StringValue _ => "string"
  | BoolValue _ => "bool"
  | StringSliceValue _ => "stringSlice"
  end.

Record Flag := {
  Flag_Name : string;
  Shorthand : string;
  Usage : string;
  Flag_Value : Value
}.

Record FlagSet := {
  formal : gmap string Flag;
  shorthands : gmap string string
}.

Definition NewFlagSet : FlagSet := {| formal := ∅; shorthands := ∅ |}.

(** [FlagSet.AddFlag]. *)
Definition AddFlag (f : FlagSet) (flag : Flag) : option FlagSet :=
  match formal f !! Flag_Name flag with
  | Some _ => None
  | None =>
      let formal' := <[Flag_Name flag := flag]> (formal f) in
      if String.eqb (Shorthand flag) EmptyString
      then Some {| formal := formal'; shorthands := shorthands f |}
      else if (1 <? String.length (Shorthand flag))%nat then None
      else
        match shorthands f !! Shorthand flag with
        | Some _ => None
        | None =>
            Some {| formal := formal';
                    shorthands :=
                      <[Shorthand flag := Flag_Name flag]> (shorthands f) |}
        end
  end.

Definition StringP (name shorthand value usage : string) (f : FlagSet)
    : option FlagSet :=
  AddFlag f {| Flag_Name := name; Shorthand := shorthand; Usage := usage;
               Flag_Value := StringValue value |}.

Definition BoolP (name shorthand : string) (value : bool) (usage : string)
    (f : FlagSet) : option FlagSet :=
  AddFlag f {| Flag_Name := name; Shorthand := shorthand; Usage := usage;
               Flag_Value := BoolValue value |}.

Definition StringSliceP (name shorthand : string) (value : list string)
    (usage : string) (f : FlagSet) : option FlagSet :=
  AddFlag f {| Flag_Name := name; Shorthand := shorthand; Usage := usage;
               Flag_Value := StringSliceValue value |}.

Definition notDefined (name : string) : error :=
  OtherError ("flag accessed but not defined: " +:+ name).

Definition wrongType (ftype : string) (flag : Flag) : error :=
  OtherError (cat ["trying to get "; ftype; " value of flag of type ";
                   Type_ (Flag_Value flag)]).

(** [GetString], [GetBool], [GetStringSlice]: the value of the flag, or
    the zero value and an error when the flag is not defined or is of
    another type. *)
Definition GetString (f : FlagSet) (name : string) : string * option error :=
  match formal f !! name with
  | None => (EmptyString, Some (notDefined name))
  | Some flag =>
      match Flag_Value flag with
      | StringValue s => (s, None)
      | _ => (EmptyString, Some (wrongType "string" flag))
      end
  end.

Definition GetBool (f : FlagSet) (name : string) : bool * option error :=
  match formal f !! name with
  | None => (false, Some (notDefined name))
  | Some flag =>
      match Flag_Value flag with
      | BoolValue b => (b, None)
      | _ => (false, Some (wrongType "bool" flag))
      end
  end.

Definition GetStringSlice (f : FlagSet) (name : string)
    : list string * option error :=
  match formal f !! name with
  | None => ([], Some (notDefined name))
  | Some flag =>
      match Flag_Value flag with
      | StringSliceValue l => (l, None)
      | _ => ([], Some (wrongType "stringSlice" flag))
      end
  end.

End pflag.

Module cobra.

(** [cobra.ExactArgs]. *)
Definition ExactArgs (n : nat) (args : list string) : option error :=
  if negb (length args =? n)%nat
  then Some (OtherError (cat ["accepts "; itoa (Z.of_nat n);
                              " arg(s), received ";
                              itoa (Z.of_nat (length args))]))
  else None.

End cobra.

Module app.

Definition FlagSourceKubeconfig : string := "source-kubeconfig".
Definition FlagSourceContext : string := "source-context".
Definition FlagSourceNamespace : string := "source-namespace".
Definition FlagDestKubeconfig : string := "dest-kubeconfig".
Definition FlagDestContext : string := "dest-context".
Definition FlagDestNamespace : string := "dest-namespace".
Definition FlagDestDeleteExtraneousFiles : string :=
  "dest-delete-extraneous-files".
Definition FlagIgnoreMounted : string := "ignore-mounted".
Definition FlagNoChown : string := "no-chown".
Definition FlagStrategies : string := "strategies".
Definition FlagRsyncImage : string := "rsync-image".
Definition FlagSshdImage : string := "sshd-image".

Definition appName : string := "pv-migrate".
Definition CommandMigrate : string := "migrate".

(** The request of package [migration], with the fields that the command
    fills in. *)
Record PVC := {
  KubeconfigPath : string;
  Context : string;
  Namespace : string;
  Name : string
}.

Record Options := {
  DeleteExtraneousFiles : bool;
  IgnoreMounted : bool;
  NoChown : bool
}.

Record Migration := {
  Source : PVC;
  Dest : PVC;
  Options_ : Options;
  Strategies : list string;
  RsyncImage : string;
  SshdImage : string
}.

(** How an execution of the command ends: with a panic, with the error of
    the argument check, or with the run of the engine, after the lines
    that were logged, on a request and with the error of the engine. *)
Inductive outcome :=
| Panic
| Rejected (err : error)
| Ran (logged : list string) (m : Migration) (err : option error).

Section Command.
(** What the command takes from packages that are not among the sources
    at hand: the default strategies, the default images, and the engine. *)
Variable DefaultStrategies : list string.
Variable DefaultRsyncImage : string.
Variable DefaultSshdImage : string.
Variable Run : Migration -> option error.

(** The flags of [buildMigrateCmd], in the order they are added. *)
Definition migrateFlags : option pflag.FlagSet :=
  foldl (fun f add => f ≫= add) (Some pflag.NewFlagSet)
    [ pflag.StringP FlagSourceKubeconfig "k" EmptyString
       "path of the kubeconfig file of the source PVC";
      pflag.StringP FlagSourceContext "c" EmptyString
       "context in the kubeconfig file of the source PVC";
      pflag.StringP FlagSourceNamespace "n" EmptyString
       "namespace of the source PVC";
      pflag.StringP FlagDestKubeconfig "K" EmptyString
       "path of the kubeconfig file of the destination PVC";
      pflag.StringP FlagDestContext "C" EmptyString
       "context in the kubeconfig file of the destination PVC";
      pflag.StringP FlagDestNamespace "N" EmptyString
       "namespace of the destination PVC";
      pflag.BoolP FlagDestDeleteExtraneousFiles "d" false
       "delete extraneous files on the destination by using rsync's '--delete' flag";
      pflag.BoolP FlagIgnoreMounted "i" false
       "do not fail if the source or destination PVC is mounted";
      pflag.BoolP FlagNoChown "o" false "omit chown on rsync";
      pflag.StringSliceP FlagStrategies "s" DefaultStrategies
       "the comma-separated list of strategies to be used in the given order";
      pflag.StringP FlagRsyncImage "r" DefaultRsyncImage
       "image to use for running rsync";
      pflag.StringP FlagSshdImage "S" DefaultSshdImage
       "image to use for running sshd server" ].

(** [RunE] of the command.  The errors of the flag lookups are dropped, as
    in the source; an index beyond the arguments panics. *)
Definition RunE (f : pflag.FlagSet) (args : list string) : outcome :=
  let sourceKubeconfig := (pflag.GetString f FlagSourceKubeconfig).1 in
  let sourceContext := (pflag.GetString f FlagSourceContext).1 in
  let sourceNamespace := (pflag.GetString f FlagSourceNamespace).1 in
  match args !! 0%nat with
  | None => Panic
  | Some arg0 =>
      let s := {| KubeconfigPath := sourceKubeconfig;
                  Context := sourceContext;
                  Namespace := sourceNamespace;
                  Name := arg0 |} in
      let destKubeconfig := (pflag.GetString f FlagDestKubeconfig).1 in
      let destContext := (pflag.GetString f FlagDestContext).1 in
      let destNamespace := (pflag.GetString f FlagDestNamespace).1 in
      match args !! 1%nat with
      | None => Panic
      | Some arg1 =>
          let d := {| KubeconfigPath := destKubeconfig;
                      Context := destContext;
                      Namespace := destNamespace;
                      Name := arg1 |} in
          let destDeleteExtraneousFiles :=
            (pflag.GetBool f FlagDestDeleteExtraneousFiles).1 in
          let ignoreMounted := (pflag.GetBool f FlagIgnoreMounted).1 in
          let flagNoChown := (pflag.GetBool f FlagNoChown).1 in
          let opts := {| DeleteExtraneousFiles := destDeleteExtraneousFiles;
                         IgnoreMounted := ignoreMounted;
                         NoChown := flagNoChown |} in
          let strategies := (pflag.GetStringSlice f FlagStrategies).1 in
          let rsyncImage := (pflag.GetString f FlagRsyncImage).1 in
          let sshdImage := (pflag.GetString f FlagSshdImage).1 in
          let m := {| Source := s;
                      Dest := d;
                      Options_ := opts;
                      Strategies := strategies;
                      RsyncImage := rsyncImage;
                      SshdImage := sshdImage |} in
          let logged :=
            if DeleteExtraneousFiles opts
            then ["Extraneous files will be deleted from the destination"]
            else [] in
          Ran logged m (Run m)
      end
  end.

(** The command as [cobra] executes it once the flags are parsed:
    [Args: cobra.ExactArgs(2)] is checked first, [RunE] runs only if the
    check passes. *)
Definition execute (f : pflag.FlagSet) (args : list string) : outcome :=
  match cobra.ExactArgs 2 args with
  | Some err => Rejected err
  | None => RunE f args
  end.

End Command.

(** Parsing the command line gives the flags values; it adds no flag
    to a flag set, removes none and changes the type of none.  [parsed]
    may hold more flags than [defined], those that the command inherits. *)
Definition parsedFrom (defined parsed : pflag.FlagSet) : Prop :=
  forall (name : string) (flag : pflag.Flag),
    pflag.formal defined !! name = Some flag ->
    exists flag' : pflag.Flag,
      pflag.formal parsed !! name = Some flag' /\
      pflag.Type_ (pflag.Flag_Value flag')
      = pflag.Type_ (pflag.Flag_Value flag).

(** The value of a flag, if it is defined. *)
Definition valueOf (f : pflag.FlagSet) (name : string) : option pflag.Value :=
  pflag.Flag_Value <$> pflag.formal f !! name.

End app.

(* ===================================================================== *)
(** * Part II: properties *)
(* ===================================================================== *)

(** ** Strings *)

Lemma append_cons (x : ascii) (a b : string) :
  String x a +:+ b = String x (a +:+ b).
Proof. reflexivity. Qed.

Lemma append_assoc (a b c : string) : (a +:+ b) +:+ c = a +:+ (b +:+ c).
Proof.
  induction a as [|x a IH]; [reflexivity |].
  now rewrite !append_cons, IH.
Qed.

Lemma append_nil_r (a : string) : a +:+ EmptyString = a.
Proof.
  induction a as [|x a IH]; [reflexivity |].
  now rewrite append_cons, IH.
Qed.

Lemma length_append (a b : string) :
  String.length (a +:+ b) = (String.length a + String.length b)%nat.
Proof.
  induction a as [|x a IH]; [reflexivity |].
  rewrite append_cons. simpl. now rewrite IH.
Qed.

Lemma lines_not_nil (s : string) : lines s <> [].
Proof.
  induction s as [|c s IH]; simpl; [discriminate |].
  destruct (Ascii.eqb c "010"%char); [discriminate |].
  destruct (lines s); [congruence | discriminate].
Qed.

Lemma lines_app (a b : string) : lines (a +:+ b) = glue (lines a) (lines b).
Proof.
  induction a as [|c a IH]; [change (EmptyString +:+ b) with b |
                             rewrite append_cons]; simpl.
  - destruct (lines b) eqn:E; [now apply lines_not_nil in E | reflexivity].
  - destruct (Ascii.eqb c "010"%char).
    + rewrite IH. simpl.
      destruct (lines a) eqn:E; [now apply lines_not_nil in E | reflexivity].
    + rewrite IH.
      destruct (lines a) as [|x xs] eqn:E; [now apply lines_not_nil in E |].
      destruct xs as [|x' xs]; simpl.
      * destruct (lines b) eqn:E'; [now apply lines_not_nil in E' | reflexivity].
      * reflexivity.
Qed.

Lemma plainHost_replacer (h : string) :
  plainHost h = true -> htmlReplacer h = h.
Proof.
  induction h as [|c h IH]; simpl; [reflexivity |].
  unfold plainHostByte. intros H.
  destruct (htmlReplacement c); [discriminate |].
  apply andb_prop in H as [_ H]. now rewrite IH.
Qed.

Lemma plainHost_lines (h : string) : plainHost h = true -> lines h = [h].
Proof.
  induction h as [|c h IH]; simpl; [reflexivity |].
  unfold plainHostByte. intros H.
  destruct (htmlReplacement c); [discriminate |].
  apply andb_prop in H as [Hc H].
  apply negb_true_iff in Hc. rewrite Hc, IH by assumption. reflexivity.
Qed.

(** ** The template *)

Lemma BuildRsyncScript_text (d c : bool) (h : string) :
  BuildRsyncScript d c h =
  (scriptHead +:+ scriptFlags d c +:+ scriptSource h +:+ scriptTail, None).
Proof.
  unfold BuildRsyncScript, scriptFlags, scriptSource.
  destruct h as [|a h]; destruct d, c; reflexivity.
Qed.

Lemma argLine_remote (h : string) :
  argLine (cat ["root@"; h; ":/source/"]) =
  "    root@" +:+ (h +:+ cat [":/source/ "; bs]).
Proof.
  unfold argLine, cat; cbn [foldr].
  rewrite !append_nil_r, !append_assoc. reflexivity.
Qed.

Lemma lines_scriptSource (h : string) :
  plainHost h = true ->
  lines (scriptSource h) =
  if String.eqb h EmptyString then [cat ["/source/ "; bs]; "    "]
  else [cat [sshOption; " "; bs];
        "    root@" +:+ (h +:+ cat [":/source/ "; bs]);
        "    "].
Proof.
  intros Hh. unfold scriptSource.
  destruct (String.eqb h EmptyString); [reflexivity |].
  rewrite !lines_app, (plainHost_replacer h), (plainHost_lines h)
    by assumption.
  reflexivity.
Qed.

Lemma lines_script (d c : bool) (h : string) :
  plainHost h = true ->
  lines (BuildRsyncScript d c h).1 = preLines ++ argLines d c h ++ postLines.
Proof.
  intros Hh. rewrite BuildRsyncScript_text. cbn [fst].
  rewrite !lines_app, lines_scriptSource by assumption.
  unfold argLines. rewrite argLine_remote.
  destruct (String.eqb h EmptyString); destruct d, c; reflexivity.
Qed.

Lemma has_line_app (line : string) (xs ys : list string) :
  existsb (String.eqb line) (xs ++ ys) =
  existsb (String.eqb line) xs || existsb (String.eqb line) ys.
Proof. apply existsb_app. Qed.

(** The model of template execution has an error branch: a field the
    struct does not have stops the execution. *)
Example Execute_unknown_field :
  Execute (script_field (scriptData true true "host"))
    [TextNode "sleep "; ActionNode "RetryInterval"]
  = ("sleep ", Some (ExecError "can't evaluate field RetryInterval")).
Proof. reflexivity. Qed.

Example BuildRsyncScript_local :
  lines (BuildRsyncScript true false EmptyString).1 =
  preLines ++ [argLine "--delete"; argLine "/source/"] ++ postLines.
Proof. reflexivity. Qed.

Example BuildRsyncScript_escapes :
  has_arg (BuildRsyncScript false false "a+b").1 "root@a&#43;b:/source/" = true.
Proof. reflexivity. Qed.

(** C10: [BuildRsyncScript] never fails.  For every parameter triple the
    execution of [scriptTemplate] on the struct ends without an error, so
    the function returns a script together with a nil error and never takes
    its error branch. *)
Theorem BuildRsyncScript_never_fails :
  forall (deleteExtraneousFiles noChown : bool) (sshTargetHost : string),
    (Execute (script_field
                (scriptData deleteExtraneousFiles noChown sshTargetHost))
       scriptTemplate).2 = None /\
    exists templatedScript : string,
      BuildRsyncScript deleteExtraneousFiles noChown sshTargetHost
      = (templatedScript, None) /\
      templatedScript <> EmptyString.
Proof.
  intros d c h. split.
  - pose proof (BuildRsyncScript_text d c h) as H.
    unfold BuildRsyncScript in H.
    destruct (Execute _ scriptTemplate) as [out [err|]]; [discriminate H |].
    reflexivity.
  - eexists. split; [apply BuildRsyncScript_text |].
    discriminate.
Qed.




Example sshOption_text :
  sshOption =
  cat ["-e "; q "ssh -o StrictHostKeyChecking=no -o UserKnownHostsFile=/dev/null -o ConnectTimeout=5"].
Proof. reflexivity. Qed.

(** ** The retry loop *)

Section RetryLoop.
Variable s : script.
Variable rsync : nat -> Z.

Local Abbreviation until_loop := (Sh.until_loop s rsync).
Local Abbreviation failures := (Sh.failures s rsync).
Local Abbreviation first_success := (Sh.first_success rsync).
Local Abbreviation budget := Sh.budget.

Lemma budget_step (v : Sh.vars) :
  Sh.n v < Sh.retries v ->
  budget v =
  S (budget {| Sh.n := Sh.n v + 1; Sh.rc := Sh.rc v;
               Sh.retries := Sh.retries v |}).
Proof. unfold Sh.budget; simpl; lia. Qed.

(** With fuel for the budget the loop ends: at the first invocation that
    exits zero, or with the budget used up. *)
Lemma until_loop_spec (fuel : nat) :
  forall (calls : nat) (v : Sh.vars),
    (budget v <= fuel)%nat ->
    until_loop fuel calls v =
    Some
      match first_success calls (budget v) with
      | Some j =>
          ({| Sh.n := Sh.n v + Z.of_nat j; Sh.rc := 0;
              Sh.retries := Sh.retries v |},
           failures calls (Sh.n v) j ++ [Sh.Rsync (rsync (calls + j))])
      | None =>
          ({| Sh.n := Sh.n v + Z.of_nat (budget v); Sh.rc := Sh.rc v;
              Sh.retries := Sh.retries v |},
           failures calls (Sh.n v) (budget v))
      end.
Proof.
  induction fuel as [|fuel IH]; intros calls v Hfuel.
  - assert (Hb : budget v = O) by lia.
    assert (Hn : (Sh.n v >=? Sh.retries v) = true)
      by (unfold Sh.budget in Hb; lia).
    simpl. rewrite Hn, Hb. simpl.
    destruct v; simpl; do 2 f_equal. f_equal; lia.
  - simpl. destruct (Sh.n v >=? Sh.retries v) eqn:Hn.
    + assert (Hb : budget v = O) by (unfold Sh.budget; lia).
      rewrite Hb. simpl. destruct v; simpl; do 2 f_equal. f_equal; lia.
    + assert (Hlt : Sh.n v < Sh.retries v) by lia.
      rewrite (budget_step v Hlt) in *. cbn [Sh.first_success Sh.failures].
      destruct (rsync calls =? 0) eqn:Hz.
      * simpl. rewrite Nat.add_0_r, Z.add_0_r. reflexivity.
      * rewrite IH by lia. cbn [Sh.n Sh.rc Sh.retries].
        destruct (first_success (S calls) _) as [j|];
          cbn [fmap option_fmap option_map].
        -- replace (Sh.n v + 1 + Z.of_nat j) with (Sh.n v + Z.of_nat (S j))
             by lia.
           replace (S calls + j)%nat with (calls + S j)%nat by lia.
           reflexivity.
        -- replace (Sh.n v + 1 + Z.of_nat (budget _))
             with (Sh.n v + Z.of_nat (S (budget
                     {| Sh.n := Sh.n v + 1; Sh.rc := Sh.rc v;
                        Sh.retries := Sh.retries v |}))) by lia.
           reflexivity.
  Qed.

(** The first success is the least index that exits zero. *)
Lemma first_success_Some (calls m k : nat) :
  (k < m)%nat ->
  (forall j, (j < k)%nat -> rsync (calls + j) <> 0) ->
  rsync (calls + k) = 0 ->
  first_success calls m = Some k.
Proof.
  revert calls k. induction m as [|m IH]; intros calls k Hk Hfail Hok;
    [lia |].
  simpl. destruct k as [|k].
  - rewrite Nat.add_0_r in Hok. rewrite Hok. reflexivity.
  - specialize (Hfail O ltac:(lia)) as H0. rewrite Nat.add_0_r in H0.
    apply Z.eqb_neq in H0. rewrite H0.
    rewrite (IH (S calls) k); [reflexivity | lia | |].
    + intros j Hj. replace (S calls + j)%nat with (calls + S j)%nat by lia.
      apply Hfail. lia.
    + replace (S calls + k)%nat with (calls + S k)%nat by lia. exact Hok.
Qed.

Lemma first_success_None (calls m : nat) :
  (forall j, (j < m)%nat -> rsync (calls + j) <> 0) ->
  first_success calls m = None.
Proof.
  revert calls. induction m as [|m IH]; intros calls Hfail; [reflexivity |].
  simpl. specialize (Hfail O ltac:(lia)) as H0. rewrite Nat.add_0_r in H0.
  apply Z.eqb_neq in H0. rewrite H0.
  rewrite IH; [reflexivity |].
  intros j Hj. replace (S calls + j)%nat with (calls + S j)%nat by lia.
  apply Hfail. lia.
Qed.

Lemma first_success_lt (calls m j : nat) :
  first_success calls m = Some j -> (j < m)%nat.
Proof.
  revert calls j. induction m as [|m IH]; intros calls j; simpl;
    [discriminate |].
  destruct (rsync calls =? 0); [intros [= <-]; lia |].
  destruct (first_success (S calls) m) as [i|] eqn:E; simpl; [|discriminate].
  intros [= <-]. apply IH in E. lia.
Qed.

(** Counting over a run of failures. *)
Lemma invocations_app (xs ys : list Sh.event) :
  Sh.invocations (xs ++ ys) = (Sh.invocations xs + Sh.invocations ys)%nat.
Proof.
  induction xs as [|[?|?|?] xs IH]; simpl; [reflexivity | | |];
    rewrite IH; reflexivity.
Qed.

Lemma delay_app (xs ys : list Sh.event) :
  Sh.delay (xs ++ ys) = Sh.delay xs + Sh.delay ys.
Proof.
  induction xs as [|[?|?|?] xs IH]; simpl; [reflexivity | | |];
    rewrite IH; lia.
Qed.

Lemma invocations_failures (calls : nat) (n : Z) (k : nat) :
  Sh.invocations (failures calls n k) = k.
Proof.
  revert calls n. induction k as [|k IH]; intros calls n; simpl;
    [reflexivity | now rewrite IH].
Qed.

Lemma delay_failures (calls : nat) (n : Z) (k : nat) :
  Sh.delay (failures calls n k) = RetryIntervalSecs s * Z.of_nat k.
Proof.
  revert calls n. induction k as [|k IH]; intros calls n.
  - simpl. lia.
  - cbn [Sh.failures Sh.delay]. rewrite IH. lia.
Qed.
End RetryLoop.

Example run_fails_three_times :
  Sh.run (scriptData true false "host")
    (fun i => if (i <? 3)%nat then 23 else 0) 10
  = Some (0,
      [ Sh.Rsync 23;
        Sh.Echo "rsync attempt 1/10 failed, waiting 5 seconds before trying again";
        Sh.Sleep 5;
        Sh.Rsync 23;
        Sh.Echo "rsync attempt 2/10 failed, waiting 5 seconds before trying again";
        Sh.Sleep 5;
        Sh.Rsync 23;
        Sh.Echo "rsync attempt 3/10 failed, waiting 5 seconds before trying again";
        Sh.Sleep 5;
        Sh.Rsync 0 ]).
Proof. reflexivity. Qed.

Example run_out_of_fuel :
  Sh.run (scriptData true false "host") (fun _ => 1) 9 = None.
Proof. reflexivity. Qed.



(** ** The shared policy *)

Lemma exec_perform {S X : Type} (h : handler S) (e : call X) (s : S) :
  exec h (perform e) s = ((h X e s).1, [Entry e (h X e s).2], (h X e s).2).
Proof. unfold perform. simpl. destruct (h X e s). reflexivity. Qed.

Lemma exec_bind {S A B : Type} (h : handler S) (p : prog A)
    (f : A -> prog B) (s : S) :
  exec h (p ≫= f) s =
  let '(s1, j1, a) := exec h p s in
  let '(s2, j2, b) := exec h (f a) s1 in
  (s2, j1 ++ j2, b).
Proof.
  revert s. induction p as [a | X e k IH]; intros s.
  - simpl. change (mbind f (Return a)) with (f a).
    destruct (exec h (f a) s) as [[s2 j2] b]. reflexivity.
  - change (mbind f (Call e k)) with (Call e (fun x => k x ≫= f)).
    simpl. destruct (h X e s) as [s1 x]. rewrite IH.
    destruct (exec h (k x) s1) as [[s2 j2] a].
    destruct (exec h (f a) s2) as [[s3 j3] b]. reflexivity.
Qed.

Lemma exec_ensurePSP {S : Type} (h : handler S) (c : clientset) (s : S) :
  exec h (ensurePSP c) s =
  let e := PodSecurityPolicies_Create c sharedPolicy in
  ((h _ e s).1, [Entry e (h _ e s).2],
   match (h _ e s).2 with
   | Ok _ => None
   | Err err => if IsAlreadyExists (Some err) then None else Some err
   end).
Proof.
  unfold ensurePSP. rewrite exec_bind, exec_perform. cbv zeta.
  destruct (h _ _ s) as [s1 [psp | [[] msg | msg | msg]]]; reflexivity.
Qed.

Lemma the_cluster_insert (w : gmap clientset cluster) (c : clientset)
    (cl : cluster) :
  the_cluster (<[c := cl]> w) c = cl.
Proof. unfold the_cluster. now rewrite lookup_insert_eq. Qed.

(** What the API server answers to the create of the shared policy. *)
Lemma apiserver_create_policy (rest : handler (gmap clientset cluster))
    (w : gmap clientset cluster) (c : clientset) :
  apiserver rest _ (PodSecurityPolicies_Create c sharedPolicy) w =
  let cl := the_cluster w c in
  match podSecurityPolicies cl !! (EmptyString, pspName) with
  | Some _ => (<[c := cl]> w, Err (alreadyExists pspName))
  | None =>
      (<[c := {| podSecurityPolicies :=
                   <[(EmptyString, pspName) := sharedPolicy]>
                     (podSecurityPolicies cl);
                 serviceAccounts := serviceAccounts cl;
                 roles := roles cl;
                 roleBindings := roleBindings cl;
                 secrets := secrets cl |}]> w,
       Ok sharedPolicy)
  end.
Proof.
  cbv zeta. unfold apiserver, tracker_add.
  destruct (the_cluster w c) as [psps sas rs rbs ss].
  cbn. destruct (psps !! (EmptyString, pspName)); reflexivity.
Qed.

(** C2: [ensurePSP] is idempotent.  Whatever the API answers, the function
    makes one create call, returns nil when the call succeeds or fails with
    an "AlreadyExists" error, and returns the error of the call exactly when
    it fails with any other error.  Against an API server that keeps the
    create contract, a second call on the state the first one left returns
    nil as the first did, changes nothing, and the policy exists; of the
    two calls the second creates nothing and the first creates the policy
    once if it was not there. *)
Theorem ensurePSP_idempotent :
  (forall (S : Type) (h : handler S) (s : S) (c : clientset),
      let create := PodSecurityPolicies_Create c sharedPolicy in
      let '(s1, journal, err) := exec h (ensurePSP c) s in
      s1 = (h _ create s).1 /\
      journal = [Entry create (h _ create s).2] /\
      (forall e : error,
          (h _ create s).2 = Err e -> IsAlreadyExists (Some e) = true ->
          err = None) /\
      (forall e : error,
          err = Some e <->
          (h _ create s).2 = Err e /\ IsAlreadyExists (Some e) = false)) /\
  (forall (rest : handler (gmap clientset cluster))
          (w : gmap clientset cluster) (c : clientset),
      let '(w1, journal1, err1) := exec (apiserver rest) (ensurePSP c) w in
      let '(w2, journal2, err2) := exec (apiserver rest) (ensurePSP c) w1 in
      err1 = None /\ err2 = None /\ w2 = w1 /\
      is_Some (podSecurityPolicies (the_cluster w2 c)
                 !! (EmptyString, pspName)) /\
      creations journal2 = 0%nat /\
      creations (journal1 ++ journal2) =
        match podSecurityPolicies (the_cluster w c)
                !! (EmptyString, pspName) with
        | Some _ => 0%nat
        | None => 1%nat
        end).
Proof.
  split.
  - intros S h s c create. rewrite exec_ensurePSP. cbv zeta. fold create.
    destruct (h _ create s) as [s1 [psp | e0]]; cbn [fst snd].
    + split; [reflexivity | split; [reflexivity | split]].
      * intros e H. discriminate H.
      * intros e. split; [discriminate | intros [H _]; discriminate H].
    + split; [reflexivity | split; [reflexivity | split]].
      * intros e [= <-] ->. reflexivity.
      * intros e. destruct (IsAlreadyExists (Some e0)) eqn:Ee0; split.
        -- discriminate.
        -- intros [[= <-] H]. congruence.
        -- intros [= <-]. split; [reflexivity | exact Ee0].
        -- intros [[= <-] _]. reflexivity.
  - intros rest w c. rewrite !exec_ensurePSP. cbv zeta.
    rewrite (apiserver_create_policy rest w c). cbv zeta.
    destruct (podSecurityPolicies (the_cluster w c) !! (EmptyString, pspName))
      as [old|] eqn:E; cbn [fst snd].
    + rewrite exec_ensurePSP. cbv zeta.
      rewrite apiserver_create_policy. cbv zeta.
      rewrite the_cluster_insert, E. cbn [fst snd].
      rewrite insert_insert_eq, the_cluster_insert, E.
      repeat split; eauto.
    + rewrite exec_ensurePSP. cbv zeta.
      rewrite apiserver_create_policy. cbv zeta.
      rewrite the_cluster_insert. cbn [podSecurityPolicies].
      rewrite lookup_insert_eq. cbn [fst snd].
      rewrite insert_insert_eq, the_cluster_insert.
      cbn [podSecurityPolicies]. rewrite lookup_insert_eq.
      repeat split; eauto.
Qed.

(** ** The access grant *)

Lemma exec_createPSPResources {S : Type} (h : handler S) (c : clientset)
    (id ns : string) (s : S) :
  exec h (createPSPResources c id ns) s =
  let e1 := PodSecurityPolicies_Create c sharedPolicy in
  let e2 := ServiceAccounts_Create c ns (grantServiceAccount id) in
  let e3 := Roles_Create c ns (grantRole id ns) in
  let e4 := RoleBindings_Create c ns (grantRoleBinding id ns) in
  let (s1, r1) := h _ e1 s in
  match step_err (Entry e1 r1) with
  | Some err => (s1, [Entry e1 r1], (EmptyString, Some err))
  | None =>
      let (s2, r2) := h _ e2 s1 in
      match result_err r2 with
      | Some err => (s2, [Entry e1 r1; Entry e2 r2], (EmptyString, Some err))
      | None =>
          let (s3, r3) := h _ e3 s2 in
          match result_err r3 with
          | Some err =>
              (s3, [Entry e1 r1; Entry e2 r2; Entry e3 r3],
               (EmptyString, Some err))
          | None =>
              let (s4, r4) := h _ e4 s3 in
              (s4, [Entry e1 r1; Entry e2 r2; Entry e3 r3; Entry e4 r4],
               match result_err r4 with
               | Some err => (EmptyString, Some err)
               | None => ("pv-migrate-" +:+ id, None)
               end)
          end
      end
  end.
Proof.
  cbv zeta. unfold createPSPResources.
  rewrite exec_bind, exec_ensurePSP. cbv zeta.
  destruct (h _ (PodSecurityPolicies_Create c sharedPolicy) s) as [s1 r1].
  cbn [fst snd]. unfold step_err. cbn [entry_created created entry_err].
  destruct r1 as [psp | err1]; cbn [result_err].
  2: { destruct (IsAlreadyExists (Some err1)); [| reflexivity].
       rewrite exec_bind, exec_perform.
       destruct (h _ (ServiceAccounts_Create c ns _) s1) as [s2 [sa | err2]];
         cbn [fst snd result_err]; [| reflexivity].
       rewrite exec_bind, exec_perform.
       destruct (h _ (Roles_Create c ns _) s2) as [s3 [role | err3]];
         cbn [fst snd result_err]; [| reflexivity].
       rewrite exec_bind, exec_perform.
       destruct (h _ (RoleBindings_Create c ns _) s3) as [s4 [rb | err4]];
         reflexivity. }
  change (IsAlreadyExists None) with false. cbv iota.
  rewrite exec_bind, exec_perform.
  destruct (h _ (ServiceAccounts_Create c ns _) s1) as [s2 [sa | err2]];
    cbn [fst snd result_err]; [| reflexivity].
  rewrite exec_bind, exec_perform.
  destruct (h _ (Roles_Create c ns _) s2) as [s3 [role | err3]];
    cbn [fst snd result_err]; [| reflexivity].
  rewrite exec_bind, exec_perform.
  destruct (h _ (RoleBindings_Create c ns _) s3) as [s4 [rb | err4]];
    reflexivity.
Qed.

(** C3: [createPSPResources] creates the shared policy, the service
    account, the role and the role binding, in this order, and nothing
    else: its calls are the first ones of these four creates, none is a
    delete.  Every call before the last one made succeeded (an
    "AlreadyExists" on the shared policy counts as success); the function
    returns the error of the last call made, so the first step that fails
    ends it with that step's error and an empty name, and nothing is
    called after it.  Without an error all four creates were made and the
    name of the service account is returned. *)
Theorem createPSPResources_steps :
  forall (S : Type) (h : handler S) (s : S) (c : clientset) (id ns : string),
    let '(_, journal, (name, err)) := exec h (createPSPResources c id ns) s in
    exists (before : list entry) (last : entry),
      journal = before ++ [last] /\
      map entry_created journal =
        map Some (take (length journal) (grantRequests c id ns)) /\
      Forall (fun en => step_err en = None) before /\
      step_err last = err /\
      (err = None -> length journal = 4%nat /\ name = "pv-migrate-" +:+ id) /\
      (err <> None -> name = EmptyString).
Proof.
  intros S h s c id ns. rewrite exec_createPSPResources. cbv zeta.
  destruct (h _ (PodSecurityPolicies_Create c sharedPolicy) s) as [s1 r1].
  destruct (step_err (Entry _ r1)) as [err1|] eqn:E1.
  { exists [], (Entry (PodSecurityPolicies_Create c sharedPolicy) r1).
    repeat split; auto; discriminate. }
  destruct (h _ (ServiceAccounts_Create c ns _) s1) as [s2 r2].
  destruct (result_err r2) as [err2|] eqn:E2.
  { exists [Entry (PodSecurityPolicies_Create c sharedPolicy) r1],
           (Entry (ServiceAccounts_Create c ns (grantServiceAccount id)) r2).
    repeat split; auto; discriminate. }
  destruct (h _ (Roles_Create c ns _) s2) as [s3 r3].
  destruct (result_err r3) as [err3|] eqn:E3.
  { exists [Entry (PodSecurityPolicies_Create c sharedPolicy) r1;
            Entry (ServiceAccounts_Create c ns (grantServiceAccount id)) r2],
           (Entry (Roles_Create c ns (grantRole id ns)) r3).
    repeat split; auto; discriminate. }
  destruct (h _ (RoleBindings_Create c ns _) s3) as [s4 r4].
  destruct (result_err r4) as [err4|] eqn:E4.
  - exists [Entry (PodSecurityPolicies_Create c sharedPolicy) r1;
            Entry (ServiceAccounts_Create c ns (grantServiceAccount id)) r2;
            Entry (Roles_Create c ns (grantRole id ns)) r3],
           (Entry (RoleBindings_Create c ns (grantRoleBinding id ns)) r4).
    repeat split; auto; discriminate.
  - exists [Entry (PodSecurityPolicies_Create c sharedPolicy) r1;
            Entry (ServiceAccounts_Create c ns (grantServiceAccount id)) r2;
            Entry (Roles_Create c ns (grantRole id ns)) r3],
           (Entry (RoleBindings_Create c ns (grantRoleBinding id ns)) r4).
    repeat split; auto. intros H. now contradiction H.
Qed.

(** No roll back: the role of the instance is already there, so the third
    create fails; the policy and the service account that the first two
    steps created stay in the cluster, and no role binding is made. *)
Example createPSPResources_leaves_partial_grant :
  let w : gmap clientset cluster :=
    {[ 0%nat := {| podSecurityPolicies := ∅; serviceAccounts := ∅;
                   roles := {[ ("ns-b", "pv-migrate-abcde") :=
                                 grantRole "abcde" "ns-b" ]};
                   roleBindings := ∅; secrets := ∅ |} ]} in
  let '(w', journal, result) :=
    exec (apiserver Double.rest) (createPSPResources 0%nat "abcde" "ns-b") w in
  result = (EmptyString, Some (alreadyExists "pv-migrate-abcde")) /\
  map entry_created journal =
    [ Some (KPodSecurityPolicy, 0%nat, EmptyString, "pv-migrate");
      Some (KServiceAccount, 0%nat, "ns-b", "pv-migrate-abcde");
      Some (KRole, 0%nat, "ns-b", "pv-migrate-abcde") ] /\
  is_Some (podSecurityPolicies (the_cluster w' 0%nat)
             !! (EmptyString, "pv-migrate")) /\
  is_Some (serviceAccounts (the_cluster w' 0%nat)
             !! ("ns-b", "pv-migrate-abcde")) /\
  roleBindings (the_cluster w' 0%nat) !! ("ns-b", "pv-migrate-abcde") = None.
Proof. vm_compute. repeat split; eauto. Qed.

(** C6: the access grant of [createPSPResources] is minimal.  Whatever the
    API answers, every role the function asks for is a role of the given
    namespace with exactly one rule, the verb [use] on the resource
    [podsecuritypolicies] of the API group [policy], restricted to the
    resource name [pv-migrate]; every role binding it asks for binds the
    service account [pv-migrate-<id>], and no other subject, to the role
    [pv-migrate-<id>] of that namespace; and a run without error asks for
    one policy, one service account, one role and one role binding. *)
Theorem createPSPResources_minimal_grant :
  forall (S : Type) (h : handler S) (s : S) (c : clientset) (id ns : string),
    let '(_, journal, (_, err)) := exec h (createPSPResources c id ns) s in
    Forall (entry_call_is (@minimalGrantCall c id ns)) journal /\
    (err = None ->
     map entry_created journal = map Some (grantRequests c id ns)).
Proof.
  intros S h s c id ns. rewrite exec_createPSPResources. cbv zeta.
  destruct (h _ (PodSecurityPolicies_Create c sharedPolicy) s) as [s1 r1].
  destruct (step_err (Entry _ r1)) as [err1|].
  { split; [| discriminate]. repeat constructor. }
  destruct (h _ (ServiceAccounts_Create c ns _) s1) as [s2 r2].
  destruct (result_err r2) as [err2|].
  { split; [| discriminate]. repeat constructor. }
  destruct (h _ (Roles_Create c ns _) s2) as [s3 r3].
  destruct (result_err r3) as [err3|].
  { split; [| discriminate]. repeat constructor. }
  destruct (h _ (RoleBindings_Create c ns _) s3) as [s4 r4].
  destruct (result_err r4) as [err4|].
  - split; [| discriminate]. repeat constructor.
  - split; [| reflexivity]. repeat constructor.
Qed.

(** ** Names and labels *)

Lemma append_inj (p a b : string) : p +:+ a = p +:+ b -> a = b.
Proof.
  induction p as [|x p IH]; [exact (fun H => H) |].
  rewrite !append_cons. intros [= H]. exact (IH H).
Qed.

(** The names are those of the objects that the functions build. *)
Lemma names_of_built_objects (id ns : string) (pvcInfo : pvc.Info)
    (privateKey : string) :
  Name (Secret_ObjectMeta (rsyncPrivateKeySecret id pvcInfo privateKey))
    = secretName id /\
  Name (ServiceAccount_ObjectMeta (grantServiceAccount id)) = grantName id /\
  Name (Role_ObjectMeta (grantRole id ns)) = grantName id /\
  Name (RoleBinding_ObjectMeta (grantRoleBinding id ns)) = grantName id.
Proof. repeat split. Qed.

Lemma jobName_of_built_job (t : task.Task) (host sname sa : string) (job : Job) :
  buildRsyncJobDest t host sname sa = Ok job ->
  Name (Job_ObjectMeta job) = jobName (task.ID t).
Proof.
  unfold buildRsyncJobDest. rewrite BuildRsyncScript_text.
  intros [= <-]. reflexivity.
Qed.

(** C4, as the claim states it, fails: the service account of instance
    [rsync-x] and the secret and the job of instance [x] are all named
    [pv-migrate-rsync-x]. *)
Lemma names_disjoint_counterexample :
  "rsync-x" <> "x" /\ ~ names_disjoint "rsync-x" "x".
Proof.
  split; [discriminate |].
  intros H. apply (H "pv-migrate-rsync-x"); vm_compute; set_solver.
Qed.

Lemma secretName_inj (id1 id2 : string) :
  secretName id1 = secretName id2 -> id1 = id2.
Proof. apply append_inj. Qed.

Lemma grantName_inj (id1 id2 : string) :
  grantName id1 = grantName id2 -> id1 = id2.
Proof. apply append_inj. Qed.

Lemma grantName_secretName (id1 id2 : string) :
  grantName id1 = secretName id2 -> id1 = "rsync-" +:+ id2.
Proof. apply (append_inj "pv-migrate-" id1 ("rsync-" +:+ id2)). Qed.

(** C4, amended: for any two distinct instance identifiers, the names of
    the objects of one kind differ (secret from secret, job from job,
    service account, role and role binding from theirs), so that no object
    of one instance, taken with its kind, is an object of the other; and
    the two sets of names are disjoint unless one identifier is [rsync-]
    followed by the other. *)
Theorem names_distinct_per_kind :
  forall id1 id2 : string,
    id1 <> id2 ->
    secretName id1 <> secretName id2 /\
    jobName id1 <> jobName id2 /\
    grantName id1 <> grantName id2 /\
    ephemeralObjects id1 ## ephemeralObjects id2 /\
    (id1 <> "rsync-" +:+ id2 -> id2 <> "rsync-" +:+ id1 ->
     names_disjoint id1 id2).
Proof.
  intros id1 id2 Hne.
  assert (Hs : secretName id1 <> secretName id2)
    by (intros H; apply Hne, secretName_inj, H).
  assert (Hg : grantName id1 <> grantName id2)
    by (intros H; apply Hne, grantName_inj, H).
  assert (Hj : jobName id1 <> jobName id2) by exact Hs.
  split; [exact Hs | split; [exact Hj | split; [exact Hg | split]]].
  - unfold ephemeralObjects. intros [k x].
    rewrite !elem_of_union, !elem_of_singleton.
    intros H1 H2.
    destruct H1 as [[[[H1|H1]|H1]|H1]|H1];
      destruct H2 as [[[[H2|H2]|H2]|H2]|H2]; congruence.
  - intros H12 H21. unfold names_disjoint, ephemeralNames.
    intros x. rewrite !elem_of_union, !elem_of_singleton.
    intros H1 H2.
    destruct H1 as [[H1|H1]|H1]; subst x;
      destruct H2 as [[H2|H2]|H2]; auto;
      try (apply H12, grantName_secretName, H2);
      try (apply H21, grantName_secretName; symmetry; exact H2).
Qed.

Lemma names_distinct_per_kind_witness :
  "abcde" <> "fghij" /\
  secretName "abcde" <> secretName "fghij" /\
  ephemeralObjects "abcde" ## ephemeralObjects "fghij" /\
  names_disjoint "abcde" "fghij".
Proof.
  assert (H : "abcde" <> "fghij") by discriminate.
  destruct (names_distinct_per_kind "abcde" "fghij" H)
    as (Hs & _ & _ & Ho & Hn).
  split; [exact H | split; [exact Hs | split; [exact Ho |]]].
  apply Hn; discriminate.
Defined.

Lemma buildRsyncJobDest_Ok (t : task.Task) (host sname sa : string) :
  exists job : Job, buildRsyncJobDest t host sname sa = Ok job.
Proof.
  unfold buildRsyncJobDest. rewrite BuildRsyncScript_text. eexists.
  reflexivity.
Qed.

(** C5, as the claim states it, fails: the service account of an instance
    is named [pv-migrate-<id>], with no component tag between the prefix
    and the identifier, and has no labels; the job has no labels on its
    own metadata either. *)
Lemma carriesIdentity_counterexample :
  (forall tag : string,
      Name (ServiceAccount_ObjectMeta (grantServiceAccount "abcde"))
      <> "pv-migrate" +:+ "-" +:+ tag +:+ "-" +:+ "abcde") /\
  ~ carriesIdentity "abcde"
      (ServiceAccount_ObjectMeta (grantServiceAccount "abcde")) /\
  (forall job : Job,
      buildRsyncJobDest (Double.aTask false false) "host" "secret" "default"
      = Ok job ->
      ~ carriesIdentity "abcde" (Job_ObjectMeta job)).
Proof.
  split; [| split].
  - intros tag H. apply (f_equal String.length) in H.
    cbn [grantServiceAccount ServiceAccount_ObjectMeta Name] in H.
    rewrite !length_append in H. simpl in H. lia.
  - intros (tag & Hname & Hlabels).
    apply (f_equal (fun m : gmap string string => m !! "instance")) in Hlabels.
    unfold k8s.ComponentLabels in Hlabels. cbn in Hlabels.
    rewrite lookup_empty, lookup_insert_eq in Hlabels. discriminate.
  - intros job [= <-] (tag & Hname & Hlabels).
    apply (f_equal (fun m : gmap string string => m !! "instance")) in Hlabels.
    unfold k8s.ComponentLabels in Hlabels. cbn in Hlabels.
    rewrite lookup_empty, lookup_insert_eq in Hlabels. discriminate.
Qed.

(** C5, amended: the secret is named [pv-migrate-rsync-<id>] and carries
    the label set [{instance=<id>, component=rsync}] on its own metadata;
    the job is named [pv-migrate-rsync-<id>] and its pod template carries
    that name and that label set; the service account, the role and the
    role binding are named [pv-migrate-<id>]. *)
Theorem ephemeral_object_identity :
  forall (t : task.Task) (pvcInfo : pvc.Info)
         (privateKey host sname sa ns : string),
    let id := task.ID t in
    let identity (m : ObjectMeta) :=
      Name m = "pv-migrate-rsync-" +:+ id /\
      Labels m = k8s.ComponentLabels id k8s.Rsync in
    identity (Secret_ObjectMeta (rsyncPrivateKeySecret id pvcInfo privateKey))
    /\ carriesIdentity id
         (Secret_ObjectMeta (rsyncPrivateKeySecret id pvcInfo privateKey))
    /\ (exists job : Job,
          buildRsyncJobDest t host sname sa = Ok job /\
          Name (Job_ObjectMeta job) = "pv-migrate-rsync-" +:+ id /\
          identity (PodTemplateSpec_ObjectMeta (Template (Job_Spec job))) /\
          carriesIdentity id
            (PodTemplateSpec_ObjectMeta (Template (Job_Spec job))))
    /\ Name (ServiceAccount_ObjectMeta (grantServiceAccount id))
       = "pv-migrate-" +:+ id
    /\ Name (Role_ObjectMeta (grantRole id ns)) = "pv-migrate-" +:+ id
    /\ Name (RoleBinding_ObjectMeta (grantRoleBinding id ns))
       = "pv-migrate-" +:+ id.
Proof.
  intros t pvcInfo privateKey host sname sa ns id identity.
  split; [split; reflexivity |].
  split; [exists k8s.Rsync; split; reflexivity |].
  split; [| repeat split].
  unfold buildRsyncJobDest. rewrite BuildRsyncScript_text.
  eexists. split; [reflexivity |].
  split; [reflexivity |].
  split; [split; reflexivity |].
  exists k8s.Rsync. split; reflexivity.
Qed.

(** ** Every run of [RunRsyncJobOverSSH] *)

Lemma always_exec {A : Type} (P : forall X : Type, call X -> Prop)
    (Q : A -> Prop) (p : prog A) :
  always P Q p ->
  forall (S : Type) (h : handler S) (s : S),
    let '(_, journal, a) := exec h p s in
    Forall (entry_call_is P) journal /\ Q a.
Proof.
  induction p as [a | X e k IH]; intros Hp S h s; simpl.
  - split; [constructor | exact Hp].
  - destruct Hp as [He Hk]. destruct (h X e s) as [s1 x].
    specialize (IH x (Hk x) S h s1).
    destruct (exec h (k x) s1) as [[s2 journal] a].
    destruct IH as [Hj Ha]. split; [constructor; assumption | exact Ha].
Qed.

Lemma RunRsyncJobOverSSH_calls (t : task.Task) (serviceType : ServiceType) :
  always (@runCall t) (fun _ => True) (RunRsyncJobOverSSH t serviceType).
Proof.
  unfold RunRsyncJobOverSSH. cbv zeta.
  destruct (migration.SourceCreatePSP _);
    destruct (migration.DestCreatePSP _) eqn:Hd;
    repeat
      match goal with
      | |- always _ _ _ =>
          progress cbn [always bind mbind prog_bind perform mret prog_ret
                        createPSPResources ensurePSP result_err
                        createRsyncPrivateKeySecret]
      | |- True => exact I
      | |- _ /\ _ => split
      | |- forall _, _ => intros ?
      | |- always _ _ (match buildRsyncJobDest ?a ?b ?c ?d with _ => _ end) =>
          destruct (buildRsyncJobDest a b c d) eqn:?
      | |- context [result_err ?x] => is_var x; destruct x
      | |- context [match ?x with _ => _ end] => is_var x; destruct x
      | |- context [if IsAlreadyExists ?x then _ else _] =>
          destruct (IsAlreadyExists x)
      | |- runCall _ _ => cbn [runCall]
      | |- _ = _ => reflexivity
      | |- exists _ : string, rsyncPrivateKeySecret _ _ _ = _ =>
          eexists; reflexivity
      | |- exists _ _ : string, buildRsyncJobDest _ _ _ _ = _ =>
          unfold destSvcAccName; rewrite Hd; eauto
      end.
Qed.

Lemma jobsSubmitted_calls (t : task.Task) (journal : list entry) :
  Forall (entry_call_is (@runCall t)) journal ->
  Forall (fun job =>
            exists targetHost privateKeySecretName : string,
              buildRsyncJobDest t targetHost privateKeySecretName
                (destSvcAccName t) = Ok job)
         (jobsSubmitted journal).
Proof.
  induction 1 as [| [X e x] journal He _ IH]; [constructor |].
  destruct e; simpl in *; try exact IH.
  constructor; [exact (proj2 He) | exact IH].
Qed.

Lemma secretsSent_calls (t : task.Task) (journal : list entry) :
  Forall (entry_call_is (@runCall t)) journal ->
  Forall (fun '(c, ns, secret) =>
            c = pvc.KubeClient (task.DestInfo t) /\
            ns = Claim_Namespace (task.DestInfo t) /\
            exists privateKey : string,
              secret = rsyncPrivateKeySecret (task.ID t) (task.DestInfo t)
                         privateKey)
         (secretsSent journal).
Proof.
  induction 1 as [| [X e x] journal He _ IH]; [constructor |].
  destruct e; simpl in *; try exact IH.
  constructor; [exact He | exact IH].
Qed.

Lemma buildRsyncJobDest_serviceAccount (t : task.Task)
    (host sname sa : string) (job : Job) :
  buildRsyncJobDest t host sname sa = Ok job ->
  ServiceAccountName (PodTemplateSpec_Spec (Template (Job_Spec job))) = sa.
Proof.
  unfold buildRsyncJobDest. rewrite BuildRsyncScript_text.
  intros [= <-]. reflexivity.
Qed.

Example run_without_grant :
  let '(_, journal, err) :=
    exec (apiserver Double.rest)
      (RunRsyncJobOverSSH (Double.aTask false false) ServiceTypeClusterIP) ∅ in
  err = None /\ jobServiceAccounts journal = ["default"] /\
  map entry_created journal =
    [None; None; None; None; None; None;
     Some (KSecret, 0%nat, "ns-b", "pv-migrate-rsync-abcde"); None].
Proof. vm_compute. repeat split. Qed.

Example run_with_grant :
  let '(_, journal, err) :=
    exec (apiserver Double.rest)
      (RunRsyncJobOverSSH (Double.aTask false true) ServiceTypeClusterIP) ∅ in
  err = None /\ jobServiceAccounts journal = ["pv-migrate-abcde"].
Proof. vm_compute. repeat split. Qed.

(** One cluster, one namespace, a grant on both sides: the grant of the
    destination side finds the service account of the source side in its
    way and the migration ends there. *)
Example run_with_two_grants_in_one_namespace :
  let t :=
    {| task.ID := "abcde";
       task.SourceInfo := Double.info "ns-a" "old";
       task.DestInfo := Double.info "ns-a" "new";
       task.Migration := task.Migration (Double.aTask true true) |} in
  (exec (apiserver Double.rest) (RunRsyncJobOverSSH t ServiceTypeClusterIP) ∅).2
  = Some (alreadyExists "pv-migrate-abcde").
Proof. vm_compute. reflexivity. Qed.

(** C7, as the claim states it, fails: without the option
    [DestCreatePSP] the job is handed over with the service account
    [default]; no access grant of the instance exists. *)
Lemma job_runs_under_grant_counterexample :
  ~ job_runs_under_grant (Double.aTask false false) ServiceTypeClusterIP
      (apiserver Double.rest) ∅.
Proof.
  unfold job_runs_under_grant. intros H. vm_compute in H.
  inversion H as [| sa sas Hsa _]. discriminate Hsa.
Qed.

(** C7, amended: for every task, [buildRsyncJobDest] returns a job: one
    container, restart policy [Never], backoff limit 0, 600 seconds of
    retention after completion, the claim of the destination and the
    private-key secret as its volumes, and the service account it was given.
    [RunRsyncJobOverSSH] gives it the service account of the access grant
    of the instance, [pv-migrate-<id>], when the option [DestCreatePSP] is
    set, and the service account [default] otherwise. *)
Theorem rsync_job_shape :
  forall (t : task.Task) (targetHost privateKeySecretName svcAccName : string),
    (exists job : Job,
        buildRsyncJobDest t targetHost privateKeySecretName svcAccName
        = Ok job /\
        let spec := PodTemplateSpec_Spec (Template (Job_Spec job)) in
        length (Containers spec) = 1%nat /\
        PodSpec_RestartPolicy spec = RestartPolicyNever /\
        BackoffLimit (Job_Spec job) = Some 0 /\
        TTLSecondsAfterFinished (Job_Spec job) = Some 600 /\
        length (Volumes spec) = 2%nat /\
        claimVolumes job =
          [ ("dest-vol", {| ClaimName := Claim_Name (task.DestInfo t) |}) ] /\
        secretVolumes job =
          [ ("private-key-vol",
             {| SecretName := privateKeySecretName;
                DefaultMode := Some 256 |}) ] /\
        ServiceAccountName spec = svcAccName) /\
    (forall (serviceType : ServiceType) (S : Type) (h : handler S) (s : S),
        let '(_, journal, _) :=
          exec h (RunRsyncJobOverSSH t serviceType) s in
        Forall (fun job =>
                  exists host sname : string,
                    buildRsyncJobDest t host sname (destSvcAccName t) = Ok job)
               (jobsSubmitted journal) /\
        Forall (fun sa => sa = destSvcAccName t)
               (jobServiceAccounts journal)).
Proof.
  intros t host sname sa. split.
  - unfold buildRsyncJobDest. rewrite BuildRsyncScript_text.
    eexists. split; [reflexivity |]. cbv zeta. repeat split.
  - intros st S h s.
    pose proof (always_exec _ _ _ (RunRsyncJobOverSSH_calls t st) S h s) as H.
    destruct (exec h (RunRsyncJobOverSSH t st) s) as [[s' journal] err].
    destruct H as [H _]. apply jobsSubmitted_calls in H.
    split; [exact H |].
    unfold jobServiceAccounts. apply Forall_map.
    eapply Forall_impl; [exact H |].
    intros job (host' & sname' & Hjob). cbv beta.
    eapply buildRsyncJobDest_serviceAccount, Hjob.
Qed.

(** ** The private key *)

Example secret_in_the_store :
  let '(w, journal, r) :=
    exec (apiserver Double.rest)
      (createRsyncPrivateKeySecret "abcde" (Double.info "ns-b" "new")
         "PRIVATE") ∅ in
  secrets (the_cluster w 0%nat) !! ("ns-b", "pv-migrate-rsync-abcde")
  = Some (rsyncPrivateKeySecret "abcde" (Double.info "ns-b" "new") "PRIVATE")
  /\ map_size (secrets (the_cluster w 0%nat)) = 1%nat
  /\ r = Ok (rsyncPrivateKeySecret "abcde" (Double.info "ns-b" "new")
              "PRIVATE").
Proof. vm_compute. repeat split. Qed.


(** ** More on the retry loop *)

Lemma first_success_zero (rsync : nat -> Z) (calls m j : nat) :
  Sh.first_success rsync calls m = Some j -> rsync (calls + j)%nat = 0.
Proof.
  revert calls j. induction m as [|m IH]; intros calls j; simpl;
    [discriminate |].
  destruct (rsync calls =? 0) eqn:E.
  - intros [= <-]. rewrite Nat.add_0_r. lia.
  - destruct (Sh.first_success rsync (S calls) m) as [i|] eqn:E';
      simpl; [| discriminate].
    intros [= <-]. apply IH in E'.
    replace (calls + S i)%nat with (S calls + i)%nat by lia. exact E'.
Qed.

Lemma first_success_all_fail (rsync : nat -> Z) (calls m : nat) :
  Sh.first_success rsync calls m = None ->
  forall j : nat, (j < m)%nat -> rsync (calls + j)%nat <> 0.
Proof.
  revert calls. induction m as [|m IH]; intros calls; simpl; [lia |].
  destruct (rsync calls =? 0) eqn:E; [discriminate |].
  destruct (Sh.first_success rsync (S calls) m) eqn:E'; [discriminate |].
  intros _ [|j] Hj.
  - rewrite Nat.add_0_r. lia.
  - replace (calls + S j)%nat with (S calls + j)%nat by lia.
    apply IH; [exact E' | lia].
Qed.

Lemma first_success_before (rsync : nat -> Z) (calls m j : nat) :
  Sh.first_success rsync calls m = Some j ->
  forall i : nat, (i < j)%nat -> rsync (calls + i)%nat <> 0.
Proof.
  revert calls j. induction m as [|m IH]; intros calls j; simpl;
    [discriminate |].
  destruct (rsync calls =? 0) eqn:E; [intros [= <-]; lia |].
  destruct (Sh.first_success rsync (S calls) m) as [k|] eqn:E';
    simpl; [| discriminate].
  intros [= <-] [|i] Hi.
  - rewrite Nat.add_0_r. lia.
  - replace (calls + S i)%nat with (S calls + i)%nat by lia.
    apply (IH _ _ E'). lia.
Qed.

(** What a run comes to, for any struct: the first success within the
    budget decides. *)
Lemma run_spec (s : script) (rsync : nat -> Z) (fuel : nat) :
  (Z.to_nat (MaxRetries s) <= fuel)%nat ->
  Sh.run s rsync fuel =
  Some
    match Sh.first_success rsync 0 (Z.to_nat (MaxRetries s)) with
    | Some j =>
        (0, Sh.failures s rsync 0 0 j ++ [Sh.Rsync (rsync j)])
    | None =>
        (1, Sh.failures s rsync 0 0 (Z.to_nat (MaxRetries s))
            ++ [Sh.Echo (Sh.jobFailed (MaxRetries s))])
    end.
Proof.
  intros Hfuel. unfold Sh.run.
  rewrite until_loop_spec
    by (unfold Sh.budget; cbn [Sh.n Sh.retries]; rewrite Z.sub_0_r; exact Hfuel).
  unfold Sh.budget. cbn [Sh.n Sh.retries Sh.rc]. rewrite Z.sub_0_r.
  destruct (Sh.first_success rsync 0 _) as [j|]; reflexivity.
Qed.

Lemma paced_failures (s : script) (rsync : nat -> Z) (k : nat) :
  forall (calls : nat) (n : Z) (tail : list Sh.event),
    (forall i : nat, (i < k)%nat -> rsync (calls + i)%nat <> 0) ->
    paced (RetryIntervalSecs s) tail ->
    paced (RetryIntervalSecs s) (Sh.failures s rsync calls n k ++ tail).
Proof.
  induction k as [|k IH]; intros calls n tail Hfail Htail; [exact Htail |].
  cbn [Sh.failures app paced].
  pose proof (Hfail O ltac:(lia)) as H0. rewrite Nat.add_0_r in H0.
  apply Z.eqb_neq in H0. rewrite H0. split; [reflexivity |].
  apply IH; [| exact Htail].
  intros i Hi. replace (S calls + i)%nat with (calls + S i)%nat by lia.
  apply Hfail. lia.
Qed.







(** ** The access grant in the cluster *)

Lemma apiserver_create_sa (rest : handler (gmap clientset cluster))
    (w : gmap clientset cluster) (c : clientset) (id ns : string) :
  apiserver rest _ (ServiceAccounts_Create c ns (grantServiceAccount id)) w =
  let cl := the_cluster w c in
  match serviceAccounts cl !! (ns, grantName id) with
  | Some _ => (<[c := cl]> w, Err (alreadyExists (grantName id)))
  | None =>
      (<[c := setServiceAccounts
                (<[(ns, grantName id) := storedServiceAccount id ns]>
                   (serviceAccounts cl)) cl]> w,
       Ok (storedServiceAccount id ns))
  end.
Proof.
  cbv zeta. unfold apiserver, tracker_add, grantName, secretName.
  destruct (the_cluster w c) as [psps sas rs rbs ss].
  cbn. rewrite String.eqb_refl. cbn.
  repeat case_match; simplify_eq; reflexivity.
Qed.

Lemma apiserver_create_role (rest : handler (gmap clientset cluster))
    (w : gmap clientset cluster) (c : clientset) (id ns : string) :
  apiserver rest _ (Roles_Create c ns (grantRole id ns)) w =
  let cl := the_cluster w c in
  match roles cl !! (ns, grantName id) with
  | Some _ => (<[c := cl]> w, Err (alreadyExists (grantName id)))
  | None =>
      (<[c := setRoles (<[(ns, grantName id) := grantRole id ns]> (roles cl))
                cl]> w,
       Ok (grantRole id ns))
  end.
Proof.
  cbv zeta. unfold apiserver, tracker_add, grantName, secretName.
  destruct (the_cluster w c) as [psps sas rs rbs ss].
  cbn. destruct (String.eqb ns EmptyString); cbn;
    rewrite String.eqb_refl; cbn;
    repeat case_match; simplify_eq; reflexivity.
Qed.

Lemma apiserver_create_rb (rest : handler (gmap clientset cluster))
    (w : gmap clientset cluster) (c : clientset) (id ns : string) :
  apiserver rest _ (RoleBindings_Create c ns (grantRoleBinding id ns)) w =
  let cl := the_cluster w c in
  match roleBindings cl !! (ns, grantName id) with
  | Some _ => (<[c := cl]> w, Err (alreadyExists (grantName id)))
  | None =>
      (<[c := setRoleBindings
                (<[(ns, grantName id) := grantRoleBinding id ns]>
                   (roleBindings cl)) cl]> w,
       Ok (grantRoleBinding id ns))
  end.
Proof.
  cbv zeta. unfold apiserver, tracker_add, grantName, secretName.
  destruct (the_cluster w c) as [psps sas rs rbs ss].
  cbn. destruct (String.eqb ns EmptyString); cbn;
    rewrite String.eqb_refl; cbn;
    repeat case_match; simplify_eq; reflexivity.
Qed.

Lemma apiserver_create_secret (rest : handler (gmap clientset cluster))
    (w : gmap clientset cluster) (id : string) (pvcInfo : pvc.Info)
    (privateKey : string) :
  let c := pvc.KubeClient pvcInfo in
  let ns := Claim_Namespace pvcInfo in
  let secret := rsyncPrivateKeySecret id pvcInfo privateKey in
  apiserver rest _ (Secrets_Create c ns secret) w =
  let cl := the_cluster w c in
  match secrets cl !! (ns, secretName id) with
  | Some _ => (<[c := cl]> w, Err (alreadyExists (secretName id)))
  | None =>
      (<[c := setSecrets (<[(ns, secretName id) := secret]> (secrets cl))
                cl]> w,
       Ok secret)
  end.
Proof.
  cbv zeta. unfold apiserver, tracker_add, grantName, secretName.
  destruct (the_cluster w (pvc.KubeClient pvcInfo)) as [psps sas rs rbs ss].
  cbn. destruct (String.eqb (Claim_Namespace pvcInfo) EmptyString); cbn;
    rewrite String.eqb_refl; cbn;
    repeat case_match; simplify_eq; reflexivity.
Qed.

Lemma exec_createPSPResources_apiserver
    (rest : handler (gmap clientset cluster)) (w : gmap clientset cluster)
    (c : clientset) (id ns : string) :
  exists journal : list entry,
    exec (apiserver rest) (createPSPResources c id ns) w =
    (<[c := (grantOutcome (the_cluster w c) id ns).1]> w, journal,
     (grantOutcome (the_cluster w c) id ns).2).
Proof.
  rewrite exec_createPSPResources. cbv zeta.
  rewrite apiserver_create_policy. cbv zeta. unfold grantOutcome.
  set (cl := the_cluster w c).
  unfold setPodSecurityPolicies, setServiceAccounts, setRoles,
    setRoleBindings.
  destruct (podSecurityPolicies cl !! (EmptyString, pspName)) as [old|];
    cbn [step_err entry_created created entry_err result_err IsAlreadyExists
         alreadyExists].
  all: rewrite apiserver_create_sa; cbv zeta; rewrite the_cluster_insert;
       unfold setServiceAccounts;
       cbn [serviceAccounts roles roleBindings podSecurityPolicies secrets].
  all: destruct (serviceAccounts cl !! (ns, grantName id)) eqn:Esa;
       cbn [result_err fst snd];
       [ rewrite insert_insert_eq; eexists; reflexivity |].
  all: rewrite apiserver_create_role; cbv zeta; rewrite the_cluster_insert;
       unfold setRoles;
       cbn [serviceAccounts roles roleBindings podSecurityPolicies secrets].
  all: destruct (roles cl !! (ns, grantName id)) eqn:Er;
       cbn [result_err fst snd];
       [ rewrite !insert_insert_eq; eexists; reflexivity |].
  all: rewrite apiserver_create_rb; cbv zeta; rewrite the_cluster_insert;
       unfold setRoleBindings;
       cbn [serviceAccounts roles roleBindings podSecurityPolicies secrets].
  all: destruct (roleBindings cl !! (ns, grantName id)) eqn:Erb;
       cbn [result_err fst snd];
       rewrite !insert_insert_eq; eexists; reflexivity.
Qed.

Lemma grantOutcome_ok (cl : cluster) (id ns : string) :
  let key := (ns, grantName id) in
  let out := grantOutcome cl id ns in
  match serviceAccounts cl !! key, roles cl !! key, roleBindings cl !! key with
  | None, None, None =>
      out.2 = (grantName id, None) /\
      serviceAccounts out.1 =
        <[key := storedServiceAccount id ns]> (serviceAccounts cl) /\
      roles out.1 = <[key := grantRole id ns]> (roles cl) /\
      roleBindings out.1 =
        <[key := grantRoleBinding id ns]> (roleBindings cl)
  | _, _, _ => out.2 = (EmptyString, Some (alreadyExists (grantName id)))
  end /\
  is_Some (podSecurityPolicies out.1 !! (EmptyString, pspName)) /\
  podSecurityPolicies cl ⊆ podSecurityPolicies out.1 /\
  serviceAccounts cl ⊆ serviceAccounts out.1 /\
  roles cl ⊆ roles out.1 /\
  roleBindings cl ⊆ roleBindings out.1 /\
  secrets out.1 = secrets cl.
Proof.
  cbv zeta. unfold grantOutcome, setPodSecurityPolicies, setServiceAccounts,
    setRoles, setRoleBindings.
  destruct (podSecurityPolicies cl !! (EmptyString, pspName)) as [old|] eqn:Ep;
    cbn [serviceAccounts roles roleBindings podSecurityPolicies secrets];
    destruct (serviceAccounts cl !! (ns, grantName id)) eqn:Esa;
    cbn [serviceAccounts roles roleBindings podSecurityPolicies secrets
         fst snd];
    destruct (roles cl !! (ns, grantName id)) eqn:Er;
    cbn [serviceAccounts roles roleBindings podSecurityPolicies secrets
         fst snd];
    destruct (roleBindings cl !! (ns, grantName id)) eqn:Erb;
    cbn [serviceAccounts roles roleBindings podSecurityPolicies secrets
         fst snd];
    rewrite ?Ep, ?lookup_insert_eq;
    repeat split; eauto; try reflexivity;
    try (apply insert_subseteq; assumption).
Qed.

(** X4: against an API server that keeps the create contract,
    [createPSPResources] succeeds exactly when the namespace holds no
    service account, no role and no role binding named [pv-migrate-<id>]
    yet.  After a success the three objects can be read back from the
    cluster under that name, with the namespace of the request, and the
    shared policy exists; every failure is an "AlreadyExists" error for
    that name, returned with an empty service account name. *)
Theorem grant_succeeds_iff_names_free :
  forall (rest : handler (gmap clientset cluster))
         (w : gmap clientset cluster) (c : clientset) (id ns : string),
    let cl := the_cluster w c in
    let key := (ns, "pv-migrate-" +:+ id) in
    let '(w', _, (name, err)) :=
      exec (apiserver rest) (createPSPResources c id ns) w in
    let cl' := the_cluster w' c in
    (err = None <->
     serviceAccounts cl !! key = None /\ roles cl !! key = None /\
     roleBindings cl !! key = None) /\
    (err = None ->
     name = "pv-migrate-" +:+ id /\
     serviceAccounts cl' !! key = Some (storedServiceAccount id ns) /\
     roles cl' !! key = Some (grantRole id ns) /\
     roleBindings cl' !! key = Some (grantRoleBinding id ns) /\
     is_Some (podSecurityPolicies cl' !! (EmptyString, "pv-migrate"))) /\
    (forall e : error,
        err = Some e ->
        e = alreadyExists ("pv-migrate-" +:+ id) /\ name = EmptyString).
Proof.
  intros rest w c id ns.
  destruct (exec_createPSPResources_apiserver rest w c id ns) as [journal ->].
  cbv zeta. rewrite the_cluster_insert.
  pose proof (grantOutcome_ok (the_cluster w c) id ns) as H. cbv zeta in H.
  change ("pv-migrate-" +:+ id) with (grantName id).
  destruct (grantOutcome (the_cluster w c) id ns) as [cl' [name err]].
  cbn [fst snd] in *.
  destruct H as (H & Hpsp & _).
  destruct (serviceAccounts (the_cluster w c) !! (ns, grantName id));
    [| destruct (roles (the_cluster w c) !! (ns, grantName id));
       [| destruct (roleBindings (the_cluster w c) !! (ns, grantName id))]].
  1-3: injection H as -> ->;
       (split; [split; [discriminate | intros (? & ? & ?); discriminate] |]);
       (split; [discriminate |]);
       intros e [= <-]; split; reflexivity.
  destruct H as (H & Hsa & Hr & Hrb). injection H as -> ->.
  split; [split; auto |].
  split; [| discriminate].
  intros _. rewrite Hsa, Hr, Hrb, !lookup_insert_eq. repeat split; auto.
Qed.

(** X5: against such an API server [createPSPResources] only adds: every
    policy, service account, role and role binding that was in the cluster
    before the call is in it after the call, as it was, whether the call
    succeeds or fails half-way; the secrets of the cluster and the other
    clusters stay as they are. *)
Theorem grant_keeps_existing_objects :
  forall (rest : handler (gmap clientset cluster))
         (w : gmap clientset cluster) (c : clientset) (id ns : string),
    let cl := the_cluster w c in
    let '(w', _, _) := exec (apiserver rest) (createPSPResources c id ns) w in
    let cl' := the_cluster w' c in
    podSecurityPolicies cl ⊆ podSecurityPolicies cl' /\
    serviceAccounts cl ⊆ serviceAccounts cl' /\
    roles cl ⊆ roles cl' /\
    roleBindings cl ⊆ roleBindings cl' /\
    secrets cl' = secrets cl /\
    (forall c' : clientset, c' <> c -> w' !! c' = w !! c').
Proof.
  intros rest w c id ns.
  destruct (exec_createPSPResources_apiserver rest w c id ns) as [journal ->].
  cbv zeta. rewrite the_cluster_insert.
  destruct (grantOutcome_ok (the_cluster w c) id ns)
    as (_ & _ & Hp & Hsa & Hr & Hrb & Hs).
  repeat split; auto.
  intros c' Hc'. apply lookup_insert_ne. congruence.
Qed.

(** X6: [createPSPResources] cannot be repeated: after a call that
    succeeded, a second call for the same instance and namespace fails with
    the "AlreadyExists" error of the service account and leaves the
    cluster as the first call left it. *)
Theorem grant_not_repeatable :
  forall (rest : handler (gmap clientset cluster))
         (w w1 : gmap clientset cluster) (c : clientset) (id ns name1 : string)
         (journal1 : list entry),
    exec (apiserver rest) (createPSPResources c id ns) w
    = (w1, journal1, (name1, None)) ->
    let '(w2, journal2, result2) :=
      exec (apiserver rest) (createPSPResources c id ns) w1 in
    result2 = (EmptyString, Some (alreadyExists ("pv-migrate-" +:+ id))) /\
    w2 = w1 /\
    map entry_created journal2 =
      [ Some (KPodSecurityPolicy, c, EmptyString, "pv-migrate");
        Some (KServiceAccount, c, ns, "pv-migrate-" +:+ id) ].
Proof.
  intros rest w w1 c id ns name1 journal1 H1.
  destruct (exec_createPSPResources_apiserver rest w c id ns) as [j1 E1].
  rewrite E1 in H1. injection H1 as Hw1 _ Hres.
  assert (Herr : (grantOutcome (the_cluster w c) id ns).2.2 = None)
    by (rewrite Hres; reflexivity).
  clear Hres.
  pose proof (grantOutcome_ok (the_cluster w c) id ns) as H. cbv zeta in H.
  destruct H as (H & Hpsp & _).
  rewrite exec_createPSPResources. cbv zeta.
  rewrite apiserver_create_policy. cbv zeta.
  rewrite <- Hw1, the_cluster_insert.
  destruct (podSecurityPolicies (grantOutcome (the_cluster w c) id ns).1
              !! (EmptyString, pspName)) as [p|] eqn:Ep;
    [| destruct Hpsp as [p Hp]; discriminate Hp].
  cbn [step_err entry_created created entry_err result_err IsAlreadyExists
       alreadyExists].
  rewrite apiserver_create_sa. cbv zeta. rewrite the_cluster_insert.
  destruct (serviceAccounts (the_cluster w c) !! (ns, grantName id));
    [rewrite H in Herr; discriminate Herr |].
  destruct (roles (the_cluster w c) !! (ns, grantName id));
    [rewrite H in Herr; discriminate Herr |].
  destruct (roleBindings (the_cluster w c) !! (ns, grantName id));
    [rewrite H in Herr; discriminate Herr |].
  destruct H as (_ & Hsa & _).
  assert (Hsa' : serviceAccounts (grantOutcome (the_cluster w c) id ns).1
                   !! (ns, grantName id)
                 = Some (storedServiceAccount id ns))
    by (rewrite Hsa; apply lookup_insert_eq).
  rewrite Hsa'. cbn [result_err]. rewrite !insert_insert_eq.
  repeat split.
Qed.

Lemma grant_not_repeatable_witness :
  exec (apiserver Double.rest) (createPSPResources 0%nat "abcde" "ns-b") ∅
  = ((exec (apiserver Double.rest) (createPSPResources 0%nat "abcde" "ns-b")
        ∅).1.1,
     (exec (apiserver Double.rest) (createPSPResources 0%nat "abcde" "ns-b")
        ∅).1.2,
     ("pv-migrate-abcde", None)) /\
  (exec (apiserver Double.rest) (createPSPResources 0%nat "abcde" "ns-b")
     (exec (apiserver Double.rest) (createPSPResources 0%nat "abcde" "ns-b")
        ∅).1.1).2
  = (EmptyString, Some (alreadyExists "pv-migrate-abcde")).
Proof.
  assert (H : exec (apiserver Double.rest)
                (createPSPResources 0%nat "abcde" "ns-b") ∅
              = ((exec (apiserver Double.rest)
                    (createPSPResources 0%nat "abcde" "ns-b") ∅).1.1,
                 (exec (apiserver Double.rest)
                    (createPSPResources 0%nat "abcde" "ns-b") ∅).1.2,
                 ("pv-migrate-abcde", None)))
    by (vm_compute; reflexivity).
  split; [exact H |].
  pose proof (grant_not_repeatable _ _ _ _ _ _ _ _ H) as H2.
  destruct (exec (apiserver Double.rest)
              (createPSPResources 0%nat "abcde" "ns-b") _) as [[w2 j2] r2]
    in H2 |- *.
  exact (proj1 H2).
Defined.

(** X7: after a successful [createPSPResources] against such an API server
    the grant is closed under its references: every subject of the role
    binding is a service account that exists in the namespace, the role the
    binding refers to exists in the namespace, and every resource name of
    every rule of that role names a policy that exists in the cluster. *)
Theorem grant_references_resolve :
  forall (rest : handler (gmap clientset cluster))
         (w w' : gmap clientset cluster) (c : clientset) (id ns name : string)
         (journal : list entry),
    exec (apiserver rest) (createPSPResources c id ns) w
    = (w', journal, (name, None)) ->
    let cl' := the_cluster w' c in
    exists (rb : RoleBinding) (role : Role),
      roleBindings cl' !! (ns, name) = Some rb /\
      RoleRef_Kind (RoleBinding_RoleRef rb) = "Role" /\
      roles cl' !! (ns, RoleRef_Name (RoleBinding_RoleRef rb)) = Some role /\
      Forall (fun subject =>
                Subject_Kind subject = "ServiceAccount" /\
                is_Some (serviceAccounts cl' !! (ns, Subject_Name subject)))
             (Subjects rb) /\
      Forall (fun rule =>
                Forall (fun policy =>
                          is_Some (podSecurityPolicies cl'
                                     !! (EmptyString, policy)))
                       (ResourceNames rule))
             (Rules role).
Proof.
  intros rest w w' c id ns name journal H.
  pose proof (grant_shape := grantOutcome_ok (the_cluster w c) id ns).
  destruct (exec_createPSPResources_apiserver rest w c id ns) as [j E].
  rewrite E in H. injection H as Hw' _ Hres.
  cbv zeta in *. rewrite <- Hw', the_cluster_insert.
  destruct grant_shape as (H & Hpsp & _).
  destruct (serviceAccounts (the_cluster w c) !! (ns, grantName id));
    [rewrite H in Hres; discriminate Hres |].
  destruct (roles (the_cluster w c) !! (ns, grantName id));
    [rewrite H in Hres; discriminate Hres |].
  destruct (roleBindings (the_cluster w c) !! (ns, grantName id));
    [rewrite H in Hres; discriminate Hres |].
  destruct H as (Hout & Hsa & Hr & Hrb).
  rewrite Hout in Hres. injection Hres as <-.
  exists (grantRoleBinding id ns), (grantRole id ns).
  rewrite Hsa, Hr, Hrb.
  split; [apply lookup_insert_eq |]. split; [reflexivity |].
  split; [apply lookup_insert_eq |].
  split.
  - repeat constructor. cbn [Subject_Name]. unfold grantName.
    rewrite lookup_insert_eq. eauto.
  - repeat constructor. exact Hpsp.
Qed.

Lemma grant_references_resolve_witness :
  let run :=
    exec (apiserver Double.rest) (createPSPResources 0%nat "abcde" "ns-b") ∅ in
  run = (run.1.1, run.1.2, ("pv-migrate-abcde", None)) /\
  exists (rb : RoleBinding) (role : Role),
    roleBindings (the_cluster run.1.1 0%nat) !! ("ns-b", "pv-migrate-abcde")
    = Some rb /\
    roles (the_cluster run.1.1 0%nat)
      !! ("ns-b", RoleRef_Name (RoleBinding_RoleRef rb)) = Some role.
Proof.
  cbv zeta.
  assert (H : exec (apiserver Double.rest)
                (createPSPResources 0%nat "abcde" "ns-b") ∅
              = ((exec (apiserver Double.rest)
                    (createPSPResources 0%nat "abcde" "ns-b") ∅).1.1,
                 (exec (apiserver Double.rest)
                    (createPSPResources 0%nat "abcde" "ns-b") ∅).1.2,
                 ("pv-migrate-abcde", None)))
    by (vm_compute; reflexivity).
  split; [exact H |].
  destruct (grant_references_resolve _ _ _ _ _ _ _ _ H)
    as (rb & role & Hrb & _ & Hrole & _).
  exists rb, role. split; assumption.
Defined.

(** X8: [ensurePSP] ensures a name, not a content: when the cluster
    already holds a policy named [pv-migrate], whatever it allows, the
    function returns nil and the policy stays as it was; it is not
    replaced by the policy the function asked for. *)
Theorem ensurePSP_keeps_existing_policy :
  forall (rest : handler (gmap clientset cluster))
         (w : gmap clientset cluster) (c : clientset)
         (old : PodSecurityPolicy),
    podSecurityPolicies (the_cluster w c) !! (EmptyString, "pv-migrate")
    = Some old ->
    let '(w', journal, err) := exec (apiserver rest) (ensurePSP c) w in
    err = None /\
    podSecurityPolicies (the_cluster w' c) = podSecurityPolicies (the_cluster w c)
    /\ podSecurityPolicies (the_cluster w' c) !! (EmptyString, "pv-migrate")
       = Some old.
Proof.
  intros rest w c old Hold. rewrite exec_ensurePSP. cbv zeta.
  rewrite apiserver_create_policy. cbv zeta.
  change pspName with "pv-migrate". rewrite Hold. cbn [fst snd].
  rewrite the_cluster_insert. repeat split. exact Hold.
Qed.

Lemma ensurePSP_keeps_existing_policy_witness :
  let w : gmap clientset cluster :=
    {[ 0%nat := setPodSecurityPolicies
                  {[ (EmptyString, "pv-migrate") := strangerPolicy ]}
                  emptyCluster ]} in
  podSecurityPolicies (the_cluster w 0%nat) !! (EmptyString, "pv-migrate")
  = Some strangerPolicy /\
  strangerPolicy <> sharedPolicy /\
  (exec (apiserver Double.rest) (ensurePSP 0%nat) w).2 = None /\
  podSecurityPolicies
    (the_cluster (exec (apiserver Double.rest) (ensurePSP 0%nat) w).1.1 0%nat)
    !! (EmptyString, "pv-migrate") = Some strangerPolicy.
Proof.
  cbv zeta.
  set (w := {[ 0%nat := setPodSecurityPolicies
                          {[ (EmptyString, "pv-migrate") := strangerPolicy ]}
                          emptyCluster ]} : gmap clientset cluster).
  assert (H : podSecurityPolicies (the_cluster w 0%nat)
                !! (EmptyString, "pv-migrate") = Some strangerPolicy)
    by (vm_compute; reflexivity).
  split; [exact H |]. split; [discriminate |].
  pose proof (ensurePSP_keeps_existing_policy Double.rest w 0%nat
                strangerPolicy H) as H'.
  destruct (exec (apiserver Double.rest) (ensurePSP 0%nat) w)
    as [[w' journal] err].
  destruct H' as (Herr & _ & Hold). split; assumption.
Defined.

(** X9: against such an API server [createRsyncPrivateKeySecret] never
    replaces a key.  If the namespace of the claim has no secret named
    [pv-migrate-rsync-<id>], the secret is stored and returned, and reading
    it back gives the private key; if it has one, the call fails with
    "AlreadyExists" and the secret that was there stays, with its own
    key.  Nothing else in the cluster and no other cluster changes. *)
Theorem private_key_secret_stored_once :
  forall (rest : handler (gmap clientset cluster))
         (w : gmap clientset cluster) (id : string) (pvcInfo : pvc.Info)
         (privateKey : string),
    let c := pvc.KubeClient pvcInfo in
    let key := (Claim_Namespace pvcInfo, "pv-migrate-rsync-" +:+ id) in
    let cl := the_cluster w c in
    let '(w', _, r) :=
      exec (apiserver rest)
        (createRsyncPrivateKeySecret id pvcInfo privateKey) w in
    let cl' := the_cluster w' c in
    match secrets cl !! key with
    | None =>
        (exists secret : Secret,
            r = Ok secret /\ secrets cl' !! key = Some secret /\
            Data secret !! "privateKey" = Some privateKey) /\
        (forall k : string * string,
            k <> key -> secrets cl' !! k = secrets cl !! k)
    | Some old =>
        r = Err (alreadyExists ("pv-migrate-rsync-" +:+ id)) /\
        secrets cl' = secrets cl
    end /\
    podSecurityPolicies cl' = podSecurityPolicies cl /\
    serviceAccounts cl' = serviceAccounts cl /\
    roles cl' = roles cl /\
    roleBindings cl' = roleBindings cl /\
    (forall c' : clientset, c' <> c -> w' !! c' = w !! c').
Proof.
  intros rest w id pvcInfo privateKey. cbv zeta.
  unfold createRsyncPrivateKeySecret. rewrite exec_perform.
  pose proof (apiserver_create_secret rest w id pvcInfo privateKey) as H.
  cbv zeta in H. rewrite H. clear H.
  change ("pv-migrate-rsync-" +:+ id) with (secretName id).
  destruct (secrets (the_cluster w (pvc.KubeClient pvcInfo))
              !! (Claim_Namespace pvcInfo, secretName id)) as [old|] eqn:E;
    cbn [fst snd]; rewrite the_cluster_insert.
  - repeat split. intros c' Hc'. apply lookup_insert_ne. congruence.
  - cbn [setSecrets secrets podSecurityPolicies serviceAccounts roles
         roleBindings].
    repeat split.
    + eexists. split; [reflexivity |]. rewrite lookup_insert_eq.
      split; [reflexivity |]. apply lookup_insert_eq.
    + intros k Hk. apply lookup_insert_ne. congruence.
    + intros c' Hc'. apply lookup_insert_ne. congruence.
Qed.

Lemma createPSPResources_only_creates {S : Type} (h : handler S) (s : S)
    (c : clientset) (id ns : string) :
  Forall (fun en => is_Some (entry_created en))
         (exec h (createPSPResources c id ns) s).1.2.
Proof.
  rewrite exec_createPSPResources. cbv zeta.
  destruct (h _ (PodSecurityPolicies_Create c sharedPolicy) s) as [s1 r1].
  destruct (step_err (Entry _ r1)); [repeat constructor; eauto |].
  destruct (h _ (ServiceAccounts_Create c ns _) s1) as [s2 r2].
  destruct (result_err r2); [repeat constructor; eauto |].
  destruct (h _ (Roles_Create c ns _) s2) as [s3 r3].
  destruct (result_err r3); [repeat constructor; eauto |].
  destruct (h _ (RoleBindings_Create c ns _) s3) as [s4 r4].
  repeat constructor; eauto.
Qed.

Lemma grantOutcome_result (cl : cluster) (id ns : string) :
  let out := grantOutcome cl id ns in
  (out.2.2 = None ->
   is_Some (serviceAccounts out.1 !! (ns, grantName id))) /\
  (forall e : error, out.2.2 = Some e -> e = alreadyExists (grantName id)) /\
  (is_Some (serviceAccounts cl !! (ns, grantName id)) ->
   out.2 = (EmptyString, Some (alreadyExists (grantName id)))).
Proof.
  cbv zeta. destruct (grantOutcome_ok cl id ns) as (H & _).
  destruct (serviceAccounts cl !! (ns, grantName id)) as [sa|];
    [| destruct (roles cl !! (ns, grantName id)) as [r|];
       [| destruct (roleBindings cl !! (ns, grantName id)) as [rb|]]].
  1-3: rewrite H; cbn [fst snd];
       (split; [discriminate |]); (split; [intros e [= <-]; reflexivity |]);
       try reflexivity; intros [x Hx]; discriminate Hx.
  destruct H as (H & Hsa & _). rewrite H, Hsa. cbn [fst snd].
  split; [intros _; rewrite lookup_insert_eq; eauto |].
  split; [discriminate | intros [x Hx]; discriminate Hx].
Qed.

(** X10: a grant on both sides of a migration within one namespace cannot
    work.  When the two claims are in the same namespace of the same
    cluster and both [SourceCreatePSP] and [DestCreatePSP] are set,
    [RunRsyncJobOverSSH] against such an API server always returns the
    "AlreadyExists" error of the name [pv-migrate-<id>]: if the grant of
    the source side succeeds, the grant of the destination side finds its
    service account taken.  The run makes create calls only; no key pair
    is generated and no job is handed over. *)
Theorem two_grants_in_one_namespace_fail :
  forall (rest : handler (gmap clientset cluster))
         (w : gmap clientset cluster) (t : task.Task)
         (serviceType : ServiceType),
    migration.SourceCreatePSP (migration.Options_ (task.Migration t)) = true ->
    migration.DestCreatePSP (migration.Options_ (task.Migration t)) = true ->
    pvc.KubeClient (task.SourceInfo t) = pvc.KubeClient (task.DestInfo t) ->
    Claim_Namespace (task.SourceInfo t) = Claim_Namespace (task.DestInfo t) ->
    let '(_, journal, err) :=
      exec (apiserver rest) (RunRsyncJobOverSSH t serviceType) w in
    err = Some (alreadyExists ("pv-migrate-" +:+ task.ID t)) /\
    Forall (fun en => is_Some (entry_created en)) journal /\
    jobsSubmitted journal = [].
Proof.
  intros rest w t st Hs Hd Hc Hns.
  assert (Hjobs : forall journal : list entry,
             Forall (fun en => is_Some (entry_created en)) journal ->
             jobsSubmitted journal = []).
  { induction 1 as [| [X e x] journal [k Hk] _ IH]; [reflexivity |].
    destruct e; try discriminate Hk; exact IH. }
  unfold RunRsyncJobOverSSH. cbv zeta. rewrite Hs, Hd, <- Hc, <- Hns.
  set (c := pvc.KubeClient (task.SourceInfo t)).
  set (ns := Claim_Namespace (task.SourceInfo t)).
  set (id := task.ID t).
  rewrite exec_bind.
  pose proof (createPSPResources_only_creates (apiserver rest) w c id ns) as J1.
  destruct (exec_createPSPResources_apiserver rest w c id ns) as [j1 E1].
  rewrite E1 in J1 |- *. cbn [fst snd] in J1.
  pose proof (grantOutcome_result (the_cluster w c) id ns) as G1.
  cbv zeta in G1.
  destruct (grantOutcome (the_cluster w c) id ns) as [cl1 [name1 [err1|]]];
    cbn [fst snd] in *.
  - destruct G1 as (_ & G1 & _). rewrite (G1 err1 eq_refl).
    cbn. rewrite app_nil_r. auto.
  - destruct G1 as (G1 & _). specialize (G1 eq_refl).
    rewrite exec_bind.
    pose proof (createPSPResources_only_creates (apiserver rest)
                  (<[c := cl1]> w) c id ns) as J2.
    destruct (exec_createPSPResources_apiserver rest (<[c := cl1]> w) c id ns)
      as [j2 E2].
    rewrite E2 in J2. rewrite E2. cbn [fst snd] in J2.
    rewrite the_cluster_insert.
    destruct (grantOutcome_result cl1 id ns) as (_ & _ & G2).
    rewrite (G2 G1). cbn. rewrite app_nil_r.
    assert (J : Forall (fun en => is_Some (entry_created en)) (j1 ++ j2))
      by (apply Forall_app; auto).
    auto.
Qed.

Lemma two_grants_in_one_namespace_fail_witness :
  let t :=
    {| task.ID := "abcde";
       task.SourceInfo := Double.info "ns-a" "old";
       task.DestInfo := Double.info "ns-a" "new";
       task.Migration := task.Migration (Double.aTask true true) |} in
  migration.SourceCreatePSP (migration.Options_ (task.Migration t)) = true /\
  migration.DestCreatePSP (migration.Options_ (task.Migration t)) = true /\
  pvc.KubeClient (task.SourceInfo t) = pvc.KubeClient (task.DestInfo t) /\
  Claim_Namespace (task.SourceInfo t) = Claim_Namespace (task.DestInfo t) /\
  (exec (apiserver Double.rest) (RunRsyncJobOverSSH t ServiceTypeClusterIP) ∅).2
  = Some (alreadyExists "pv-migrate-abcde").
Proof.
  cbv zeta. repeat (split; [reflexivity |]).
  pose proof (two_grants_in_one_namespace_fail Double.rest ∅
                {| task.ID := "abcde";
                   task.SourceInfo := Double.info "ns-a" "old";
                   task.DestInfo := Double.info "ns-a" "new";
                   task.Migration := task.Migration (Double.aTask true true) |}
                ServiceTypeClusterIP eq_refl eq_refl eq_refl eq_refl) as H.
  destruct (exec (apiserver Double.rest) _ ∅) as [[w' journal] err].
  exact (proj1 H).
Defined.

(** ** What a run of [RunRsyncJobOverSSH] passes on *)

Lemma alwaysH_exec {A : Type}
    (P : list entry -> forall X : Type, call X -> Prop)
    (Q : list entry -> A -> Prop) (p : prog A) :
  forall hist : list entry,
    alwaysH P Q hist p ->
    forall (S : Type) (h : handler S) (s : S),
      let '(_, journal, a) := exec h p s in
      eachAfter P hist journal /\ Q (hist ++ journal) a.
Proof.
  induction p as [a | X e k IH]; intros hist Hp S h s; simpl.
  - rewrite app_nil_r. split; [exact I | exact Hp].
  - destruct Hp as [He Hk]. destruct (h X e s) as [s1 x].
    specialize (IH x _ (Hk x) S h s1).
    destruct (exec h (k x) s1) as [[s2 journal] a].
    destruct IH as [Hj Ha]. rewrite <- app_assoc in Ha.
    split; [split; assumption | exact Ha].
Qed.

Lemma buildRsyncJobDest_not_Err (t : task.Task) (host sname sa : string)
    (err : error) :
  buildRsyncJobDest t host sname sa <> Err err.
Proof.
  destruct (buildRsyncJobDest_Ok t host sname sa) as [job ->]. discriminate.
Qed.

Lemma RunRsyncJobOverSSH_jobWiring (t : task.Task) (serviceType : ServiceType) :
  alwaysH (jobWiring t) (fun _ _ => True) [] (RunRsyncJobOverSSH t serviceType).
Proof.
  unfold RunRsyncJobOverSSH. cbv zeta.
  destruct (migration.SourceCreatePSP _);
    destruct (migration.DestCreatePSP _) eqn:Hd; walk.
  all: try exact I.
  all: cbn; split; [reflexivity |]; do 2 eexists;
       (split; [reflexivity |]); (split; [reflexivity |]);
       unfold destSvcAccName; rewrite Hd; eassumption.
Qed.

Lemma RunRsyncJobOverSSH_keyFlow (t : task.Task) (serviceType : ServiceType) :
  alwaysH (keyFlow t) (fun _ _ => True) [] (RunRsyncJobOverSSH t serviceType).
Proof.
  unfold RunRsyncJobOverSSH. cbv zeta.
  destruct (migration.SourceCreatePSP _);
    destruct (migration.DestCreatePSP _); walk.
  all: try exact I.
  all: cbn; repeat split; eauto.
Qed.

Lemma RunRsyncJobOverSSH_sshdWiring (t : task.Task)
    (serviceType : ServiceType) :
  alwaysH (sshdWiring t serviceType) (fun _ _ => True) []
    (RunRsyncJobOverSSH t serviceType).
Proof.
  unfold RunRsyncJobOverSSH. cbv zeta.
  destruct (migration.SourceCreatePSP _) eqn:Hs;
    destruct (migration.DestCreatePSP _); walk.
  all: try exact I.
  all: cbn; unfold sourceSvcAccName; rewrite ?Hs; repeat split; eauto.
Qed.

Lemma RunRsyncJobOverSSH_inOrder (t : task.Task) (serviceType : ServiceType) :
  alwaysH inOrder (fun _ _ => True) [] (RunRsyncJobOverSSH t serviceType).
Proof.
  unfold RunRsyncJobOverSSH. cbv zeta.
  destruct (migration.SourceCreatePSP _);
    destruct (migration.DestCreatePSP _); walk.
  all: try exact I.
  all: reflexivity.
Qed.

Lemma RunRsyncJobOverSSH_endsWithLastCall (t : task.Task)
    (serviceType : ServiceType) :
  alwaysH (fun _ _ _ => True) endsWithLastCall []
    (RunRsyncJobOverSSH t serviceType).
Proof.
  unfold RunRsyncJobOverSSH. cbv zeta.
  destruct (migration.SourceCreatePSP _);
    destruct (migration.DestCreatePSP _); walk.
  all: try exact I.
  all: try match goal with
           | H : IsAlreadyExists (result_err (Ok _)) = true |- _ =>
               discriminate H
           | H : buildRsyncJobDest _ _ _ _ = Err _ |- _ =>
               exfalso; exact (buildRsyncJobDest_not_Err _ _ _ _ _ H)
           end.
  all: cbn [result_err] in *; unfold endsWithLastCall; do 2 eexists;
       (split; [reflexivity |]);
       (split; [cbn [app]; repeat constructor;
                unfold step_err; cbn [entry_created created entry_err
                                      result_err];
                rewrite ?Hexists, ?Hexists0; reflexivity |]);
       (split; [unfold step_err; cbn [entry_created created entry_err
                                      result_err];
                rewrite ?Hexists, ?Hexists0; reflexivity |]);
       first [discriminate | intros _; reflexivity].
Qed.

(** X11: in every run of [RunRsyncJobOverSSH], whatever the calls are
    answered, the key pair is asked for once, for the key algorithm of the
    options; the secret for the sshd side is asked for the source claim
    with the public half of the pair that was generated; and the secret
    that the function creates is the private-key secret of the instance,
    in the namespace and through the client of the destination claim,
    holding the private half of that same pair. *)
Theorem run_key_flow :
  forall (t : task.Task) (serviceType : ServiceType)
         (S : Type) (h : handler S) (s : S),
    let '(_, journal, _) := exec h (RunRsyncJobOverSSH t serviceType) s in
    eachAfter (keyFlow t) [] journal.
Proof.
  intros t st S h s.
  pose proof (alwaysH_exec _ _ _ [] (RunRsyncJobOverSSH_keyFlow t st) S h s)
    as H.
  destruct (exec h (RunRsyncJobOverSSH t st) s) as [[s' journal] err].
  exact (proj1 H).
Qed.

(** X12: in every run of [RunRsyncJobOverSSH] the sshd pod is prepared
    for the source claim, with the sshd image of the migration, the name
    of the secret that was returned for the public key, and the service
    account of the source side: [pv-migrate-<id>] when [SourceCreatePSP] is
    set, [default] otherwise.  The pod that is waited for is the one that
    was prepared, the service is created with the service type of the
    caller, and the address is asked for the service that was created,
    all through the client of the source claim. *)
Theorem run_sshd_wiring :
  forall (t : task.Task) (serviceType : ServiceType)
         (S : Type) (h : handler S) (s : S),
    let '(_, journal, _) := exec h (RunRsyncJobOverSSH t serviceType) s in
    eachAfter (sshdWiring t serviceType) [] journal.
Proof.
  intros t st S h s.
  pose proof (alwaysH_exec _ _ _ []
                (RunRsyncJobOverSSH_sshdWiring t st) S h s) as H.
  destruct (exec h (RunRsyncJobOverSSH t st) s) as [[s' journal] err].
  exact (proj1 H).
Qed.

(** X13: in every run of [RunRsyncJobOverSSH] the job that is handed over
    goes to the client of the destination claim and is the job that
    [buildRsyncJobDest] builds for the address that was resolved for the
    sshd service, for the name of the private-key secret as the API
    returned it, and for the service account of the destination side. *)
Theorem run_job_wiring :
  forall (t : task.Task) (serviceType : ServiceType)
         (S : Type) (h : handler S) (s : S),
    let '(_, journal, _) := exec h (RunRsyncJobOverSSH t serviceType) s in
    eachAfter (jobWiring t) [] journal.
Proof.
  intros t st S h s.
  pose proof (alwaysH_exec _ _ _ []
                (RunRsyncJobOverSSH_jobWiring t st) S h s) as H.
  destruct (exec h (RunRsyncJobOverSSH t st) s) as [[s' journal] err].
  exact (proj1 H).
Qed.

(** X14: every run of [RunRsyncJobOverSSH] goes through the steps of the
    function in one order: the creates of the grants come before
    everything else, and then key pair, public-key secret, pod, wait for
    the pod, service, address, private-key secret and job, each at most
    once and none before all the ones that precede it were made. *)
Theorem run_steps_in_order :
  forall (t : task.Task) (serviceType : ServiceType)
         (S : Type) (h : handler S) (s : S),
    let '(_, journal, _) := exec h (RunRsyncJobOverSSH t serviceType) s in
    eachAfter inOrder [] journal.
Proof.
  intros t st S h s.
  pose proof (alwaysH_exec _ _ _ []
                (RunRsyncJobOverSSH_inOrder t st) S h s) as H.
  destruct (exec h (RunRsyncJobOverSSH t st) s) as [[s' journal] err].
  exact (proj1 H).
Qed.

(** X15: [RunRsyncJobOverSSH] stops at the first call that fails and
    returns its error: in every run all calls but the last succeeded (an
    "AlreadyExists" on the shared policy counts as success), and the
    function returns the error of the last call.  It cleans nothing up
    after a failure, since no call follows the failed one.  It returns nil
    only when its last call was the job, completed without error. *)
Theorem run_ends_with_last_call :
  forall (t : task.Task) (serviceType : ServiceType)
         (S : Type) (h : handler S) (s : S),
    let '(_, journal, err) := exec h (RunRsyncJobOverSSH t serviceType) s in
    endsWithLastCall journal err.
Proof.
  intros t st S h s.
  pose proof (alwaysH_exec _ _ _ []
                (RunRsyncJobOverSSH_endsWithLastCall t st) S h s) as H.
  destruct (exec h (RunRsyncJobOverSSH t st) s) as [[s' journal] err].
  exact (proj2 H).
Qed.

Example run_stops_when_the_pod_does_not_start :
  let rest : handler (gmap clientset cluster) :=
    fun X e =>
      match e in call X return gmap clientset cluster ->
                               gmap clientset cluster * X with
      | CreateSshdPodWaitTillRunning _ _ => fun w =>
          (w, Some (OtherError "timed out waiting for the condition"))
      | e' => Double.rest _ e'
      end in
  let '(_, journal, err) :=
    exec (apiserver rest)
      (RunRsyncJobOverSSH (Double.aTask false false) ServiceTypeClusterIP) ∅ in
  err = Some (OtherError "timed out waiting for the condition") /\
  map entry_step journal = [1; 2; 3; 4]%nat.
Proof. vm_compute. split; reflexivity. Qed.

(** ** The pod of the job *)

(** X16: the pod of the job that [buildRsyncJobDest] builds is well
    formed: its volumes have distinct names, every volume mount of its
    container names one of them, no two mounts share a path, and every
    volume is of a type that the shared policy of [ensurePSP] allows. *)
Theorem job_pod_well_formed :
  forall (t : task.Task) (targetHost privateKeySecretName svcAccName : string),
    exists job : Job,
      buildRsyncJobDest t targetHost privateKeySecretName svcAccName = Ok job /\
      NoDup (map Volume_Name (Volumes (podOf job))) /\
      Forall (fun m => VolumeMount_Name m
                       ∈ map Volume_Name (Volumes (podOf job)))
             (allMounts (podOf job)) /\
      NoDup (map MountPath (allMounts (podOf job))) /\
      Forall (fun v =>
                Forall (fun fsType =>
                          fsType ∈ PodSecurityPolicySpec_Volumes
                                     (PodSecurityPolicy_Spec sharedPolicy))
                       (fsTypes (Volume_VolumeSource v)))
             (Volumes (podOf job)).
Proof.
  intros t host sname sa. unfold buildRsyncJobDest.
  rewrite BuildRsyncScript_text. eexists. split; [reflexivity |].
  unfold podOf, allMounts.
  cbn [Job_Spec Template PodTemplateSpec_Spec Volumes Containers map concat
       VolumeMounts app Volume_Name VolumeMount_Name MountPath
       Volume_VolumeSource].
  split; [| split; [| split]].
  - apply NoDup_cons. split; [| apply NoDup_singleton].
    rewrite list_elem_of_singleton. discriminate.
  - repeat constructor; set_solver.
  - apply NoDup_cons. split; [| apply NoDup_singleton].
    rewrite list_elem_of_singleton. rewrite append_cons. discriminate.
  - repeat constructor; cbv; set_solver.
Qed.



(** ** What a host cannot add to the script *)

Lemma occurrences_app (b : ascii) (x y : string) :
  occurrences b (x +:+ y) = (occurrences b x + occurrences b y)%nat.
Proof.
  induction x as [|c x IH]; [reflexivity |].
  rewrite append_cons. simpl. rewrite IH. lia.
Qed.

Lemma htmlReplacement_cases (c : ascii) :
  match htmlReplacement c with
  | Some repl =>
      In c ("038"%char :: replacedBytes) /\
      Forall (fun b => occurrences b repl = O) replacedBytes
  | None => ~ In c replacedBytes
  end.
Proof.
  destruct c as [[] [] [] [] [] [] [] []]; vm_compute;
    first [ split; [tauto | repeat constructor]
          | intros H; repeat (destruct H as [H | H]; [discriminate H |]);
            exact H ].
Qed.

Lemma htmlReplacer_free (b : ascii) (h : string) :
  In b replacedBytes -> occurrences b (htmlReplacer h) = O.
Proof.
  intros Hb. induction h as [|c h IH]; [reflexivity |].
  cbn [htmlReplacer]. pose proof (htmlReplacement_cases c) as Hc.
  destruct (htmlReplacement c) as [repl|].
  - destruct Hc as [_ Hrepl]. rewrite occurrences_app, IH.
    rewrite Forall_forall in Hrepl. rewrite (Hrepl b); [reflexivity |].
    apply list_elem_of_In. exact Hb.
  - cbn [occurrences]. rewrite IH.
    destruct (Ascii.eqb c b) eqn:E; [| reflexivity].
    apply Ascii.eqb_eq in E. subst c. contradiction.
Qed.

(** X18: a host cannot add a quote to the script.  Whatever bytes the
    host has, the script holds exactly as many double quotes, apostrophes,
    plus signs, angle brackets and NUL bytes as the script of the same
    options for a harmless host ([x], or no host when the host is empty):
    the host is written through the HTML escaper, which leaves none of
    these bytes. *)
Theorem host_adds_no_quote :
  forall (deleteExtraneousFiles noChown : bool) (sshTargetHost : string)
         (b : ascii),
    In b replacedBytes ->
    occurrences b
      (BuildRsyncScript deleteExtraneousFiles noChown sshTargetHost).1 =
    occurrences b
      (BuildRsyncScript deleteExtraneousFiles noChown
         (if String.eqb sshTargetHost EmptyString then EmptyString else "x")).1.
Proof.
  intros d c h b Hb. rewrite !BuildRsyncScript_text. cbn [fst].
  rewrite !occurrences_app. f_equal. f_equal. f_equal.
  unfold scriptSource.
  destruct (String.eqb h EmptyString) eqn:E; [reflexivity |].
  change (String.eqb "x" EmptyString) with false. cbv iota.
  rewrite !occurrences_app, !htmlReplacer_free by exact Hb. reflexivity.
Qed.

Lemma host_adds_no_quote_witness :
  In "034"%char replacedBytes /\
  occurrences "034"%char
    (BuildRsyncScript true false (cat ["h"; dq; "; reboot; "; dq])).1 = 10%nat.
Proof.
  assert (H : In "034"%char replacedBytes) by (vm_compute; tauto).
  split; [exact H |].
  rewrite (host_adds_no_quote true false
             (cat ["h"; dq; "; reboot; "; dq]) "034"%char H).
  reflexivity.
Defined.

(** ** The [migrate] command *)

Section MigrateCommand.
Variable DefaultStrategies : list string.
Variable DefaultRsyncImage : string.
Variable DefaultSshdImage : string.
Variable Run : app.Migration -> option error.

Local Abbreviation migrateFlags :=
  (app.migrateFlags DefaultStrategies DefaultRsyncImage DefaultSshdImage).
Local Abbreviation execute := (app.execute Run).

(** The flags that [RunE] reads are flags that the command defines, with
    the type they are read as. *)
Lemma migrateFlags_types (defined : pflag.FlagSet) :
  migrateFlags = Some defined ->
  Forall (fun '(name, ftype) =>
            exists flag : pflag.Flag,
              pflag.formal defined !! name = Some flag /\
              pflag.Type_ (pflag.Flag_Value flag) = ftype)
    [ (app.FlagSourceKubeconfig, "string"); (app.FlagSourceContext, "string");
      (app.FlagSourceNamespace, "string"); (app.FlagDestKubeconfig, "string");
      (app.FlagDestContext, "string"); (app.FlagDestNamespace, "string");
      (app.FlagDestDeleteExtraneousFiles, "bool");
      (app.FlagIgnoreMounted, "bool"); (app.FlagNoChown, "bool");
      (app.FlagStrategies, "stringSlice"); (app.FlagRsyncImage, "string");
      (app.FlagSshdImage, "string") ].
Proof.
  intros H. vm_compute in H. injection H as <-.
  repeat constructor; eexists; (split; [vm_compute; reflexivity |]);
    reflexivity.
Qed.

Lemma parsed_string (defined parsed : pflag.FlagSet) (name : string) :
  app.parsedFrom defined parsed ->
  (exists flag : pflag.Flag,
      pflag.formal defined !! name = Some flag /\
      pflag.Type_ (pflag.Flag_Value flag) = "string") ->
  exists v : string,
    app.valueOf parsed name = Some (pflag.StringValue v) /\
    pflag.GetString parsed name = (v, None).
Proof.
  intros Hp (flag & Hflag & Htype).
  destruct (Hp name flag Hflag) as (flag' & Hflag' & Htype').
  rewrite Htype in Htype'. unfold app.valueOf, pflag.GetString.
  rewrite Hflag'. cbn.
  destruct (pflag.Flag_Value flag'); try discriminate Htype'. eauto.
Qed.

Lemma parsed_bool (defined parsed : pflag.FlagSet) (name : string) :
  app.parsedFrom defined parsed ->
  (exists flag : pflag.Flag,
      pflag.formal defined !! name = Some flag /\
      pflag.Type_ (pflag.Flag_Value flag) = "bool") ->
  exists v : bool,
    app.valueOf parsed name = Some (pflag.BoolValue v) /\
    pflag.GetBool parsed name = (v, None).
Proof.
  intros Hp (flag & Hflag & Htype).
  destruct (Hp name flag Hflag) as (flag' & Hflag' & Htype').
  rewrite Htype in Htype'. unfold app.valueOf, pflag.GetBool.
  rewrite Hflag'. cbn.
  destruct (pflag.Flag_Value flag'); try discriminate Htype'. eauto.
Qed.

Lemma parsed_stringSlice (defined parsed : pflag.FlagSet) (name : string) :
  app.parsedFrom defined parsed ->
  (exists flag : pflag.Flag,
      pflag.formal defined !! name = Some flag /\
      pflag.Type_ (pflag.Flag_Value flag) = "stringSlice") ->
  exists v : list string,
    app.valueOf parsed name = Some (pflag.StringSliceValue v) /\
    pflag.GetStringSlice parsed name = (v, None).
Proof.
  intros Hp (flag & Hflag & Htype).
  destruct (Hp name flag Hflag) as (flag' & Hflag' & Htype').
  rewrite Htype in Htype'. unfold app.valueOf, pflag.GetStringSlice.
  rewrite Hflag'. cbn.
  destruct (pflag.Flag_Value flag'); try discriminate Htype'. eauto.
Qed.


(** X20: every flag reaches the request.  For every flag set that comes
    from parsing a command line against the flags of [buildMigrateCmd],
    and for two arguments, the engine is run on a request whose source and
    destination claims are named by the two arguments and whose twelve
    other fields are the values of the twelve flags: no flag lookup of
    [RunE] fails, so none of the errors that [RunE] drops ever hides a
    missing or ill-typed flag.  The notice about extraneous files is
    logged exactly when the flag is set. *)
Theorem request_follows_flags :
  forall (defined parsed : pflag.FlagSet) (arg0 arg1 : string),
    migrateFlags = Some defined ->
    app.parsedFrom defined parsed ->
    exists (logged : list string) (m : app.Migration),
      execute parsed [arg0; arg1] = app.Ran logged m (Run m) /\
      app.Name (app.Source m) = arg0 /\
      app.Name (app.Dest m) = arg1 /\
      app.valueOf parsed "source-kubeconfig"
        = Some (pflag.StringValue (app.KubeconfigPath (app.Source m))) /\
      app.valueOf parsed "source-context"
        = Some (pflag.StringValue (app.Context (app.Source m))) /\
      app.valueOf parsed "source-namespace"
        = Some (pflag.StringValue (app.Namespace (app.Source m))) /\
      app.valueOf parsed "dest-kubeconfig"
        = Some (pflag.StringValue (app.KubeconfigPath (app.Dest m))) /\
      app.valueOf parsed "dest-context"
        = Some (pflag.StringValue (app.Context (app.Dest m))) /\
      app.valueOf parsed "dest-namespace"
        = Some (pflag.StringValue (app.Namespace (app.Dest m))) /\
      app.valueOf parsed "dest-delete-extraneous-files"
        = Some (pflag.BoolValue
                  (app.DeleteExtraneousFiles (app.Options_ m))) /\
      app.valueOf parsed "ignore-mounted"
        = Some (pflag.BoolValue (app.IgnoreMounted (app.Options_ m))) /\
      app.valueOf parsed "no-chown"
        = Some (pflag.BoolValue (app.NoChown (app.Options_ m))) /\
      app.valueOf parsed "strategies"
        = Some (pflag.StringSliceValue (app.Strategies m)) /\
      app.valueOf parsed "rsync-image"
        = Some (pflag.StringValue (app.RsyncImage m)) /\
      app.valueOf parsed "sshd-image"
        = Some (pflag.StringValue (app.SshdImage m)) /\
      logged =
        if app.DeleteExtraneousFiles (app.Options_ m)
        then ["Extraneous files will be deleted from the destination"]
        else [].
Proof.
  intros defined parsed arg0 arg1 Hdef Hparsed.
  pose proof (migrateFlags_types defined Hdef) as Htypes.
  repeat match goal with
         | H : Forall _ (_ :: _) |- _ =>
             let Hhead := fresh "Hflag" in
             apply Forall_cons in H; destruct H as [Hhead H]
         end.
  clear Htypes.
  repeat match goal with
         | H : exists flag, _ !! ?name = Some flag /\ _ = "string" |- _ =>
             let v := fresh "v" in
             let Hv := fresh "Hv" in
             let Hg := fresh "Hg" in
             destruct (parsed_string defined parsed name Hparsed H)
               as (v & Hv & Hg); clear H
         | H : exists flag, _ !! ?name = Some flag /\ _ = "bool" |- _ =>
             let v := fresh "v" in
             let Hv := fresh "Hv" in
             let Hg := fresh "Hg" in
             destruct (parsed_bool defined parsed name Hparsed H)
               as (v & Hv & Hg); clear H
         | H : exists flag, _ !! ?name = Some flag /\ _ = "stringSlice" |- _ =>
             let v := fresh "v" in
             let Hv := fresh "Hv" in
             let Hg := fresh "Hg" in
             destruct (parsed_stringSlice defined parsed name Hparsed H)
               as (v & Hv & Hg); clear H
         end.
  unfold app.execute, app.RunE. cbn [cobra.ExactArgs length Nat.eqb negb].
  cbn [lookup list_lookup].
  repeat match goal with
         | H : pflag.GetString _ _ = _ |- _ => rewrite H; clear H
         | H : pflag.GetBool _ _ = _ |- _ => rewrite H; clear H
         | H : pflag.GetStringSlice _ _ = _ |- _ => rewrite H; clear H
         end.
  cbn [fst]. do 2 eexists. split; [reflexivity |].
  cbn [app.Source app.Dest app.Options_ app.Name app.KubeconfigPath
       app.Context app.Namespace app.DeleteExtraneousFiles app.IgnoreMounted
       app.NoChown app.Strategies app.RsyncImage app.SshdImage].
  repeat split; assumption.
Qed.

(** X21: the command can be built, and without any flag on the command
    line the engine is run on the request of the defaults.  Adding the
    twelve flags never panics, whatever the defaults of the other
    packages are; with the flags as they are defined the two claims are
    named by the arguments and have empty kubeconfig path, context and
    namespace; nothing is deleted on the destination, mounted claims are
    not ignored, ownership is kept; strategies and images are the
    defaults of their packages.  Nothing is logged. *)
Theorem request_of_defaults :
  exists defined : pflag.FlagSet,
    migrateFlags = Some defined /\
    forall arg0 arg1 : string,
      let m :=
        {| app.Source :=
             {| app.KubeconfigPath := EmptyString; app.Context := EmptyString;
                app.Namespace := EmptyString; app.Name := arg0 |};
           app.Dest :=
             {| app.KubeconfigPath := EmptyString; app.Context := EmptyString;
                app.Namespace := EmptyString; app.Name := arg1 |};
           app.Options_ :=
             {| app.DeleteExtraneousFiles := false;
                app.IgnoreMounted := false;
                app.NoChown := false |};
           app.Strategies := DefaultStrategies;
           app.RsyncImage := DefaultRsyncImage;
           app.SshdImage := DefaultSshdImage |} in
      execute defined [arg0; arg1] = app.Ran [] m (Run m).
Proof.
  eexists. split; [vm_compute; reflexivity |].
  intros arg0 arg1. vm_compute. reflexivity.
Qed.

End MigrateCommand.

Lemma parsedFrom_refl (defined : pflag.FlagSet) :
  app.parsedFrom defined defined.
Proof. intros name flag H. eauto. Qed.

(** Giving a flag a value of its type, as parsing does, keeps the flag
    set one that is parsed from the defined flags. *)
Lemma parsedFrom_insert (defined parsed : pflag.FlagSet) (name : string)
    (flag flag' : pflag.Flag) :
  app.parsedFrom defined parsed ->
  pflag.formal parsed !! name = Some flag ->
  pflag.Type_ (pflag.Flag_Value flag') = pflag.Type_ (pflag.Flag_Value flag) ->
  app.parsedFrom defined
    {| pflag.formal := <[name := flag']> (pflag.formal parsed);
       pflag.shorthands := pflag.shorthands parsed |}.
Proof.
  intros Hp Hflag Htype other flag0 H0.
  destruct (Hp other flag0 H0) as (flag1 & H1 & Htype1).
  cbn [pflag.formal]. destruct (decide (other = name)) as [-> | Hne].
  - exists flag'. rewrite lookup_insert_eq. split; [reflexivity |].
    rewrite Htype. congruence.
  - exists flag1. rewrite lookup_insert_ne by congruence. auto.
Qed.

Lemma request_follows_flags_witness :
  let defaults := app.migrateFlags ["mnt2"; "svc"; "lbsvc"] "rsync:1" "sshd:1" in
  let defined := default pflag.NewFlagSet defaults in
  let parsed :=
    {| pflag.formal :=
         <[ "dest-delete-extraneous-files" :=
              {| pflag.Flag_Name := "dest-delete-extraneous-files";
                 pflag.Shorthand := "d";
                 pflag.Usage := "delete extraneous files";
                 pflag.Flag_Value := pflag.BoolValue true |} ]>
           (pflag.formal defined);
       pflag.shorthands := pflag.shorthands defined |} in
  defaults = Some defined /\
  app.parsedFrom defined parsed /\
  exists (logged : list string) (m : app.Migration),
    app.execute (fun _ => None) parsed ["old-claim"; "new-claim"]
    = app.Ran logged m None /\
    app.Name (app.Source m) = "old-claim" /\
    app.DeleteExtraneousFiles (app.Options_ m) = true /\
    app.Strategies m = ["mnt2"; "svc"; "lbsvc"] /\
    logged = ["Extraneous files will be deleted from the destination"].
Proof.
  cbv zeta.
  set (defined := default pflag.NewFlagSet
                    (app.migrateFlags ["mnt2"; "svc"; "lbsvc"]
                       "rsync:1" "sshd:1")).
  assert (Hdef : app.migrateFlags ["mnt2"; "svc"; "lbsvc"] "rsync:1" "sshd:1"
                 = Some defined) by (vm_compute; reflexivity).
  assert (Hparsed :
            app.parsedFrom defined
              {| pflag.formal :=
                   <[ "dest-delete-extraneous-files" :=
                        {| pflag.Flag_Name := "dest-delete-extraneous-files";
                           pflag.Shorthand := "d";
                           pflag.Usage := "delete extraneous files";
                           pflag.Flag_Value := pflag.BoolValue true |} ]>
                     (pflag.formal defined);
                 pflag.shorthands := pflag.shorthands defined |}).
  { eapply parsedFrom_insert;
      [apply parsedFrom_refl | vm_compute; reflexivity | reflexivity]. }
  split; [exact Hdef |]. split; [exact Hparsed |].
  destruct (request_follows_flags ["mnt2"; "svc"; "lbsvc"] "rsync:1" "sshd:1"
              (fun _ => None) defined _ "old-claim" "new-claim" Hdef Hparsed)
    as (logged & m & Hrun & Hsrc & _ & _ & _ & _ & _ & _ & _ & Hdel & _ & _
        & Hstrat & _ & _ & Hlog).
  exists logged, m. split; [exact Hrun |]. split; [exact Hsrc |].
  assert (Hd : app.DeleteExtraneousFiles (app.Options_ m) = true).
  { match type of Hdel with
    | ?l = _ =>
        assert (Hv : l = Some (pflag.BoolValue true))
          by (vm_compute; reflexivity)
    end.
    congruence. }
  split; [exact Hd |]. split.
  - match type of Hstrat with
    | ?l = _ =>
        assert (Hv : l = Some (pflag.StringSliceValue ["mnt2"; "svc"; "lbsvc"]))
          by (vm_compute; reflexivity)
    end.
    congruence.
  - rewrite Hd in Hlog. exact Hlog.
Defined.
